(** * WindowsControl: the power-action request pipeline

    A shallow embedding of [main.go] and [service_windows.go]: the delay
    parser ([parseDelay]), the command translation and execution
    ([handlePowerAction] and its three handlers), the JSON response writer
    ([writeJSON]), the process entry point ([main], [runHTTPServer],
    [maybeRunService]) and the service control loop
    ([windowsService.Execute]).

    Go strings and byte slices are [string]s (sequences of 8-bit [ascii]
    codes); Go's [int] is the 64-bit integer of the amd64 build, carried in
    [Z] with its wrap-around written out where the code can overflow.  The
    parts of the Go standard library the handlers call ([strconv],
    [unicode/utf8], [encoding/json], [time], [net/http]) are modelled next
    to the code that uses them. *)

From Stdlib Require Import ZArith NArith List String Ascii Bool Lia.
From Stdlib Require Import Decimal DecimalString DecimalPos.
Import ListNotations.

Local Open Scope string_scope.
Local Open Scope Z_scope.

Set Warnings "-register-all".

(* ================================================================== *)
(** * Bytes and strings *)

(** The double quote and the backslash, by code. *)
Definition dq : ascii := "034"%char.
Definition bs : ascii := "092"%char.

Definition byteN (c : ascii) : N := N_of_ascii c.
Definition ofN (n : N) : ascii := ascii_of_N n.

Definition str1 (c : ascii) : string := String c EmptyString.

(** [quoted s] is [s] between two double quotes. *)
Definition quoted (s : string) : string := String dq (s ++ str1 dq).

Fixpoint existsb_string (p : ascii -> bool) (s : string) : bool :=
  match s with
  | EmptyString => false
  | String c s' => p c || existsb_string p s'
  end.

Definition hexDigit (n : N) : ascii :=
  if (n <? 10)%N then ofN (48 + n) else ofN (87 + n).

(** Two lower-case hexadecimal digits of a byte. *)
Definition hex2 (c : ascii) : string :=
  String (hexDigit (N.shiftr (byteN c) 4))
    (str1 (hexDigit (N.land (byteN c) 15))).

Definition isDigit (c : ascii) : bool :=
  ((48 <=? byteN c) && (byteN c <=? 57))%N.

Definition isHex (c : ascii) : bool :=
  isDigit c
  || ((97 <=? byteN c) && (byteN c <=? 102))%N
  || ((65 <=? byteN c) && (byteN c <=? 70))%N.

(* ================================================================== *)
(** * Go's [int] and [strconv] *)

Module strconv.

(** [int] and [int64] on the amd64 build. *)
Definition minInt64 : Z := - 2 ^ 63.
Definition maxInt64 : Z := 2 ^ 63 - 1.

Definition inInt64 (z : Z) : bool := (minInt64 <=? z) && (z <=? maxInt64).

(** Two's-complement wrap-around of a 64-bit signed result. *)
Definition wrap64 (z : Z) : Z := (z + 2 ^ 63) mod 2 ^ 64 - 2 ^ 63.

(** [strconv.Itoa]: the decimal text of an [int], with a leading minus
    sign for a negative one. *)
Definition Itoa (i : Z) : string := NilZero.string_of_int (Z.to_int i).

(** [strconv.FormatUint(v, 10)]. *)
Definition FormatUint (v : Z) : string :=
  NilZero.string_of_uint (N.to_uint (Z.to_N v)).

(** The value of a run of decimal digits, [None] when the run is empty or
    holds another byte ([strconv.ParseUint] in base 10, before its range
    check). *)
Fixpoint digitsValue (acc : Z) (s : string) : option Z :=
  match s with
  | EmptyString => Some acc
  | String c s' =>
      if isDigit c
      then digitsValue (10 * acc + (Z.of_N (byteN c) - 48)) s'
      else None
  end.

Definition ParseUint (s : string) : option Z :=
  match s with
  | EmptyString => None
  | _ => match digitsValue 0 s with
         | Some un => if un <? 2 ^ 64 then Some un else None
         | None => None
         end
  end.

(** [strconv.ParseInt(s, 10, 64)]: an optional sign, then digits; a result
    outside the 64-bit range is an error. *)
Definition ParseInt (s : string) : option Z :=
  match s with
  | EmptyString => None
  | String c s' =>
      let neg := Ascii.eqb c "-" in
      let body := if Ascii.eqb c "+" || neg then s' else s in
      match ParseUint body with
      | None => None
      | Some un =>
          if negb neg && (2 ^ 63 <=? un) then None
          else if neg && (2 ^ 63 <? un) then None
          else Some (if neg then - un else un)
      end
  end.

End strconv.

(* ================================================================== *)
(** * [unicode/utf8] *)

Module utf8.

Definition RuneError : N := 65533.

Definition inRange (lo hi : N) (c : ascii) : bool :=
  ((lo <=? byteN c) && (byteN c <=? hi))%N.

Definition cont (c : ascii) : N := N.land (byteN c) 63.

(** Size and accepted range of the second byte, by first byte (the
    [first] and [acceptRanges] tables); [None] for a byte that starts no
    multi-byte sequence. *)
Definition firstInfo (c : ascii) : option (nat * N * N) :=
  let b := byteN c in
  if (b <? 194)%N then None
  else if (b <=? 223)%N then Some (2%nat, 128, 191)%N
  else if (b =? 224)%N then Some (3%nat, 160, 191)%N
  else if (b <=? 236)%N then Some (3%nat, 128, 191)%N
  else if (b =? 237)%N then Some (3%nat, 128, 159)%N
  else if (b <=? 239)%N then Some (3%nat, 128, 191)%N
  else if (b =? 240)%N then Some (4%nat, 144, 191)%N
  else if (b <=? 243)%N then Some (4%nat, 128, 191)%N
  else if (b =? 244)%N then Some (4%nat, 128, 143)%N
  else None.

(** [utf8.DecodeRuneInString]: the first rune of [s] and its width in
    bytes; an invalid or short encoding decodes as [(RuneError, 1)]. *)
Definition DecodeRuneInString (s : string) : N * nat :=
  match s with
  | EmptyString => (RuneError, 0%nat)
  | String s0 t0 =>
      if (byteN s0 <? 128)%N then (byteN s0, 1%nat)
      else
        match firstInfo s0 with
        | None => (RuneError, 1%nat)
        | Some (sz, lo, hi) =>
            match t0 with
            | EmptyString => (RuneError, 1%nat)
            | String s1 t1 =>
                if negb (inRange lo hi s1) then (RuneError, 1%nat)
                else if (sz <=? 2)%nat
                then (N.shiftl (N.land (byteN s0) 31) 6 + cont s1, 2%nat)%N
                else
                  match t1 with
                  | EmptyString => (RuneError, 1%nat)
                  | String s2 t2 =>
                      if negb (inRange 128 191 s2) then (RuneError, 1%nat)
                      else if (sz <=? 3)%nat
                      then (N.shiftl (N.land (byteN s0) 15) 12
                            + N.shiftl (cont s1) 6 + cont s2, 3%nat)%N
                      else
                        match t2 with
                        | EmptyString => (RuneError, 1%nat)
                        | String s3 _ =>
                            if negb (inRange 128 191 s3)
                            then (RuneError, 1%nat)
                            else (N.shiftl (N.land (byteN s0) 7) 18
                                  + N.shiftl (cont s1) 12
                                  + N.shiftl (cont s2) 6 + cont s3, 4%nat)%N
                        end
                  end
            end
        end
  end.

(** The two-byte encoding of a rune in U+0080..U+07FF. *)
Definition encode2 (r : N) : string :=
  String (ofN (192 + N.shiftr r 6)) (str1 (ofN (128 + N.land r 63))).

End utf8.

(* ================================================================== *)
(** * Errors *)

(** The [error] values the program handles: the sentinels of [io],
    [net/http] and [context], the two decoding errors of [encoding/json],
    [errors.New], [fmt.Errorf] with [%w], and the errors of the operating
    system (a failed bind, a command that cannot be spawned or exits
    non-zero), which the program only prints. *)
Inductive error : Type :=
| io_EOF
| io_ErrUnexpectedEOF
| http_ErrServerClosed
| context_Canceled
| json_SyntaxError (msg : string)
| json_UnmarshalTypeError (Value : string) (Field : string) (Type_ : string)
| errors_New (text : string)
| fmt_wrapError (msg : string) (err : error)
| os_Error (text : string).

(** [err.Error()]. *)
Definition Error (e : error) : string :=
  match e with
  | io_EOF => "EOF"
  | io_ErrUnexpectedEOF => "unexpected EOF"
  | http_ErrServerClosed => "http: Server closed"
  | context_Canceled => "context canceled"
  | json_SyntaxError msg => msg
  | json_UnmarshalTypeError v f t =>
      match f with
      | EmptyString =>
          "json: cannot unmarshal " ++ v ++ " into Go value of type " ++ t
      | _ =>
          "json: cannot unmarshal " ++ v ++ " into Go struct field ."
          ++ f ++ " of type " ++ t
      end
  | errors_New text => text
  | fmt_wrapError msg _ => msg
  | os_Error text => text
  end.

(** The sentinel errors are package variables, compared by identity. *)
Inductive sentinel := sEOF | sErrUnexpectedEOF | sErrServerClosed | sCanceled.

Definition sameSentinel (e : error) (t : sentinel) : bool :=
  match e, t with
  | io_EOF, sEOF => true
  | io_ErrUnexpectedEOF, sErrUnexpectedEOF => true
  | http_ErrServerClosed, sErrServerClosed => true
  | context_Canceled, sCanceled => true
  | _, _ => false
  end.

(** [errors.Is(err, target)] for a sentinel target: [err] or an error it
    wraps is the target. *)
Fixpoint errors_Is (e : error) (t : sentinel) : bool :=
  sameSentinel e t
  || match e with
     | fmt_wrapError _ inner => errors_Is inner t
     | _ => false
     end.

(** [fmt.Errorf("invalid request body: %w", err)] and the like. *)
Definition fmt_Errorf_w (pre : string) (err : error) : error :=
  fmt_wrapError (pre ++ Error err) err.

(* ================================================================== *)
(** * [encoding/json]: the scanner and the stream decoder *)

Module json.

(** A JSON value as the decoder sees it.  String and key texts are kept
    as they stand between their quotes (escapes not yet resolved), number
    literals as their text; members and elements are in input order. *)
Inductive Value : Type :=
| Null
| Bool (b : bool)
| Number (lit : string)
| Str (raw : string)
| Array (elems : list Value)
| Object (members : list (string * Value)).

Definition rawOf (v : Value) : string :=
  match v with
  | Str raw => raw
  | _ => EmptyString
  end.

(** ** Error texts *)

(** [unicode.IsPrint] on U+0000..U+00FF. *)
Definition isPrintLatin1 (c : ascii) : bool :=
  let b := byteN c in
  ((32 <=? b) && (b <? 127)
   || (161 <=? b) && (b <=? 255) && negb (b =? 173))%N.

(** [quoteChar]: the offending byte for a syntax error message, in single
    quotes; [strconv.Quote] decides how the byte is shown. *)
Definition quoteChar (c : ascii) : string :=
  let b := byteN c in
  let q := "'"%char in
  if (b =? 39)%N then String q (String bs (String q (str1 q)))
  else if (b =? 34)%N then String q (String dq (str1 q))
  else if (b =? 92)%N then String q (String bs (String bs (str1 q)))
  else if isPrintLatin1 c
  then String q ((if (b <? 128)%N then str1 c else utf8.encode2 b) ++ str1 q)
  else
    String q (String bs
      ((if (b =? 7)%N then "a"
        else if (b =? 8)%N then "b"
        else if (b =? 12)%N then "f"
        else if (b =? 10)%N then "n"
        else if (b =? 13)%N then "r"
        else if (b =? 9)%N then "t"
        else if (b =? 11)%N then "v"
        else if ((b <? 32) || (b =? 127))%N then "x" ++ hex2 c
        else "u00" ++ hex2 c) ++ str1 q)).

(** ** The scanner ([scanner.go])

    The scanner is fed one byte at a time.  Its [parseState] stack records
    the enclosing arrays and objects; here each entry also carries what has
    been read of that array or object, and the states inside a string or a
    number carry the text read so far, so that the value is at hand when
    the scanner reports its end. *)
Inductive parseState : Type :=
| parseObjectKey (members : list (string * Value)) (key : option string)
| parseObjectValue (members : list (string * Value)) (key : option string)
| parseArrayValue (elems : list Value).

Inductive stepState : Type :=
| stateBeginValueOrEmpty
| stateBeginValue
| stateBeginStringOrEmpty
| stateBeginString
| stateEndValue
| stateEndTop (v : Value)
| stateInString (acc : string)
| stateInStringEsc (acc : string)
| stateInStringEscU (acc : string)
| stateInStringEscU1 (acc : string)
| stateInStringEscU12 (acc : string)
| stateInStringEscU123 (acc : string)
| stateNeg (acc : string)
| state1 (acc : string)
| state0 (acc : string)
| stateDot (acc : string)
| stateDot0 (acc : string)
| stateE (acc : string)
| stateESign (acc : string)
| stateE0 (acc : string)
| stateT | stateTr | stateTru
| stateF | stateFa | stateFal | stateFals
| stateN | stateNu | stateNul.

Record scanner : Type := mkScanner {
  step : stepState;
  stack : list parseState
}.

(** What feeding a byte gives: the scan goes on; or the top-level value is
    complete ([consumed] tells whether the byte fed is its last byte or
    already lies behind it); or the byte is a syntax error. *)
Inductive scanResult : Type :=
| scanContinue (s : scanner)
| scanEnd (v : Value) (consumed : bool)
| scanError (msg : string).

Definition maxNestingDepth : N := 10000.

Definition isSpace (c : ascii) : bool :=
  let b := byteN c in ((b =? 32) || (b =? 9) || (b =? 13) || (b =? 10))%N.

(** [s.error(c, context)]. *)
Definition serror (c : ascii) (context : string) : scanResult :=
  scanError ("invalid character " ++ quoteChar c ++ " " ++ context).

Definition snoc (acc : string) (c : ascii) : string := acc ++ str1 c.

(** A value is complete: it joins the array or object that encloses it,
    or it is the top-level value. *)
Definition endValue (v : Value) (st : list parseState) : scanner :=
  match st with
  | [] => mkScanner (stateEndTop v) []
  | parseArrayValue elems :: st' =>
      mkScanner stateEndValue (parseArrayValue (elems ++ [v]) :: st')
  | parseObjectKey ms _ :: st' =>
      mkScanner stateEndValue (parseObjectKey ms (Some (rawOf v)) :: st')
  | parseObjectValue ms (Some k) :: st' =>
      mkScanner stateEndValue (parseObjectValue (ms ++ [(k, v)]) None :: st')
  | parseObjectValue ms None :: st' =>
      mkScanner stateEndValue (parseObjectValue ms None :: st')
  end.

(** An array or object closes at the byte fed ([popParseState]). *)
Definition closeValue (v : Value) (st : list parseState) : scanResult :=
  match st with
  | [] => scanEnd v true
  | _ => scanContinue (endValue v st)
  end.

(** [pushParseState]. *)
Definition pushParseState (c : ascii) (p : parseState) (next : stepState)
    (st : list parseState) : scanResult :=
  if (N.of_nat (List.length (p :: st)) <=? maxNestingDepth)%N
  then scanContinue (mkScanner next (p :: st))
  else serror c "exceeded max depth".

(** [stateEndValue]: after a value inside an array or an object. *)
Definition stepEndValue (st : list parseState) (c : ascii) : scanResult :=
  match st with
  | [] => serror c EmptyString
  | top :: st' =>
      if isSpace c then scanContinue (mkScanner stateEndValue st)
      else
        match top with
        | parseObjectKey ms k =>
            if Ascii.eqb c ":"
            then scanContinue
                   (mkScanner stateBeginValue (parseObjectValue ms k :: st'))
            else serror c "after object key"
        | parseObjectValue ms _ =>
            if Ascii.eqb c ","
            then scanContinue
                   (mkScanner stateBeginString (parseObjectKey ms None :: st'))
            else if Ascii.eqb c "}" then closeValue (Object ms) st'
            else serror c "after object key:value pair"
        | parseArrayValue elems =>
            if Ascii.eqb c ","
            then scanContinue (mkScanner stateBeginValue st)
            else if Ascii.eqb c "]" then closeValue (Array elems) st'
            else serror c "after array element"
        end
  end.

(** A number ends at the first byte that cannot continue it; that byte is
    then looked at in the state after the value. *)
Definition endNumber (acc : string) (st : list parseState) (c : ascii)
    : scanResult :=
  match st with
  | [] => scanEnd (Number acc) false
  | _ => stepEndValue (stack (endValue (Number acc) st)) c
  end.

Definition stepBeginValue (st : list parseState) (c : ascii) : scanResult :=
  if isSpace c then scanContinue (mkScanner stateBeginValue st)
  else if Ascii.eqb c "{"
  then pushParseState c (parseObjectKey [] None) stateBeginStringOrEmpty st
  else if Ascii.eqb c "["
  then pushParseState c (parseArrayValue []) stateBeginValueOrEmpty st
  else if Ascii.eqb c dq
  then scanContinue (mkScanner (stateInString EmptyString) st)
  else if Ascii.eqb c "-" then scanContinue (mkScanner (stateNeg (str1 c)) st)
  else if Ascii.eqb c "0" then scanContinue (mkScanner (state0 (str1 c)) st)
  else if Ascii.eqb c "t" then scanContinue (mkScanner stateT st)
  else if Ascii.eqb c "f" then scanContinue (mkScanner stateF st)
  else if Ascii.eqb c "n" then scanContinue (mkScanner stateN st)
  else if isDigit c then scanContinue (mkScanner (state1 (str1 c)) st)
  else serror c "looking for beginning of value".

Definition stepBeginString (st : list parseState) (c : ascii) : scanResult :=
  if isSpace c then scanContinue (mkScanner stateBeginString st)
  else if Ascii.eqb c dq
  then scanContinue (mkScanner (stateInString EmptyString) st)
  else serror c "looking for beginning of object key string".

Definition step0 (acc : string) (st : list parseState) (c : ascii)
    : scanResult :=
  if Ascii.eqb c "." then scanContinue (mkScanner (stateDot (snoc acc c)) st)
  else if Ascii.eqb c "e" || Ascii.eqb c "E"
  then scanContinue (mkScanner (stateE (snoc acc c)) st)
  else endNumber acc st c.

Definition stepESign (acc : string) (st : list parseState) (c : ascii)
    : scanResult :=
  if isDigit c then scanContinue (mkScanner (stateE0 (snoc acc c)) st)
  else serror c "in exponent of numeric literal".

(** One letter of [true], [false] or [null]. *)
Definition stepLetter (c want : ascii) (lit : string) (next : scanner)
    : scanResult :=
  if Ascii.eqb c want then scanContinue next
  else serror c ("in literal " ++ lit ++ " (expecting '" ++ str1 want ++ "')").

(** [s.step(s, c)]. *)
Definition stepByte (s : scanner) (c : ascii) : scanResult :=
  let st := stack s in
  match step s with
  | stateBeginValueOrEmpty =>
      if isSpace c then scanContinue s
      else if Ascii.eqb c "]"
      then match st with
           | parseArrayValue elems :: st' => closeValue (Array elems) st'
           | _ => serror c EmptyString
           end
      else stepBeginValue st c
  | stateBeginValue => stepBeginValue st c
  | stateBeginStringOrEmpty =>
      if isSpace c then scanContinue s
      else if Ascii.eqb c "}"
      then match st with
           | parseObjectKey ms _ :: st' => closeValue (Object ms) st'
           | _ => serror c EmptyString
           end
      else stepBeginString st c
  | stateBeginString => stepBeginString st c
  | stateEndValue => stepEndValue st c
  | stateEndTop v => scanEnd v false
  | stateInString acc =>
      if Ascii.eqb c dq then scanContinue (endValue (Str acc) st)
      else if Ascii.eqb c bs
      then scanContinue (mkScanner (stateInStringEsc (snoc acc c)) st)
      else if (byteN c <? 32)%N then serror c "in string literal"
      else scanContinue (mkScanner (stateInString (snoc acc c)) st)
  | stateInStringEsc acc =>
      if Ascii.eqb c "b" || Ascii.eqb c "f" || Ascii.eqb c "n"
         || Ascii.eqb c "r" || Ascii.eqb c "t" || Ascii.eqb c bs
         || Ascii.eqb c "/" || Ascii.eqb c dq
      then scanContinue (mkScanner (stateInString (snoc acc c)) st)
      else if Ascii.eqb c "u"
      then scanContinue (mkScanner (stateInStringEscU (snoc acc c)) st)
      else serror c "in string escape code"
  | stateInStringEscU acc =>
      if isHex c
      then scanContinue (mkScanner (stateInStringEscU1 (snoc acc c)) st)
      else serror c (String bs "u hexadecimal character escape")
  | stateInStringEscU1 acc =>
      if isHex c
      then scanContinue (mkScanner (stateInStringEscU12 (snoc acc c)) st)
      else serror c (String bs "u hexadecimal character escape")
  | stateInStringEscU12 acc =>
      if isHex c
      then scanContinue (mkScanner (stateInStringEscU123 (snoc acc c)) st)
      else serror c (String bs "u hexadecimal character escape")
  | stateInStringEscU123 acc =>
      if isHex c
      then scanContinue (mkScanner (stateInString (snoc acc c)) st)
      else serror c (String bs "u hexadecimal character escape")
  | stateNeg acc =>
      if Ascii.eqb c "0" then scanContinue (mkScanner (state0 (snoc acc c)) st)
      else if isDigit c then scanContinue (mkScanner (state1 (snoc acc c)) st)
      else serror c "in numeric literal"
  | state1 acc =>
      if isDigit c then scanContinue (mkScanner (state1 (snoc acc c)) st)
      else step0 acc st c
  | state0 acc => step0 acc st c
  | stateDot acc =>
      if isDigit c then scanContinue (mkScanner (stateDot0 (snoc acc c)) st)
      else serror c "after decimal point in numeric literal"
  | stateDot0 acc =>
      if isDigit c then scanContinue (mkScanner (stateDot0 (snoc acc c)) st)
      else if Ascii.eqb c "e" || Ascii.eqb c "E"
      then scanContinue (mkScanner (stateE (snoc acc c)) st)
      else endNumber acc st c
  | stateE acc =>
      if Ascii.eqb c "+" || Ascii.eqb c "-"
      then scanContinue (mkScanner (stateESign (snoc acc c)) st)
      else stepESign acc st c
  | stateESign acc => stepESign acc st c
  | stateE0 acc =>
      if isDigit c then scanContinue (mkScanner (stateE0 (snoc acc c)) st)
      else endNumber acc st c
  | stateT => stepLetter c "r" "true" (mkScanner stateTr st)
  | stateTr => stepLetter c "u" "true" (mkScanner stateTru st)
  | stateTru => stepLetter c "e" "true" (endValue (Bool true) st)
  | stateF => stepLetter c "a" "false" (mkScanner stateFa st)
  | stateFa => stepLetter c "l" "false" (mkScanner stateFal st)
  | stateFal => stepLetter c "s" "false" (mkScanner stateFals st)
  | stateFals => stepLetter c "e" "false" (endValue (Bool false) st)
  | stateN => stepLetter c "u" "null" (mkScanner stateNu st)
  | stateNu => stepLetter c "l" "null" (mkScanner stateNul st)
  | stateNul => stepLetter c "l" "null" (endValue Null st)
  end.

(** [s.reset()]. *)
Definition reset : scanner := mkScanner stateBeginValue [].

(** ** [Decoder.readValue]

    The decoder feeds the buffered input to a fresh scanner until the
    scanner reports the end of the first value; the bytes after that value
    stay in the buffer, unread.  At the end of the input a space is fed to
    finish a number or a literal; if that does not end a value, the error
    is [io.ErrUnexpectedEOF] when the input holds a non-space byte and
    [io.EOF] when it holds none. *)
Inductive readResult : Type :=
| readOk (v : Value) (rest : string)
| readErr (e : error).

Definition nonSpace (b : string) : bool :=
  existsb_string (fun c => negb (isSpace c)) b.

Fixpoint readLoop (buf : string) (s : scanner) (b : string) : readResult :=
  match b with
  | EmptyString =>
      match stepByte s " " with
      | scanEnd v _ => readOk v EmptyString
      | _ => readErr (if nonSpace buf then io_ErrUnexpectedEOF else io_EOF)
      end
  | String c b' =>
      match stepByte s c with
      | scanContinue s' => readLoop buf s' b'
      | scanEnd v true => readOk v b'
      | scanEnd v false => readOk v b
      | scanError msg => readErr (json_SyntaxError msg)
      end
  end.

Definition readValue (buf : string) : readResult := readLoop buf reset buf.

(** ** Object keys and struct fields

    A key selects a struct field when the two names are equal after case
    folding ([foldName]); the key is first unquoted ([unquoteBytes]).  Both
    are followed rune by rune. *)
Definition hexVal (c : ascii) : N :=
  let b := byteN c in
  if isDigit c then (b - 48)%N
  else if (97 <=? b)%N then (b - 87)%N else (b - 55)%N.

(** [getu4]: the value of a [\uXXXX] escape at the head of [s]. *)
Definition getu4 (s : string) : option (N * string) :=
  match s with
  | String b0 (String u (String h1 (String h2 (String h3 (String h4 rest))))) =>
      if Ascii.eqb b0 bs && Ascii.eqb u "u"
         && isHex h1 && isHex h2 && isHex h3 && isHex h4
      then Some (hexVal h1 * 4096 + hexVal h2 * 256
                 + hexVal h3 * 16 + hexVal h4, rest)%N
      else None
  | _ => None
  end.

Definition isSurrogate (r : N) : bool := ((55296 <=? r) && (r <? 57344))%N.

(** [utf16.DecodeRune]. *)
Definition utf16_DecodeRune (r1 r2 : N) : N :=
  if ((55296 <=? r1) && (r1 <? 56320) && (56320 <=? r2) && (r2 <? 57344))%N
  then (N.shiftl (r1 - 55296) 10 + (r2 - 56320) + 65536)%N
  else utf8.RuneError.

Definition escapeRune (e : ascii) : N :=
  if Ascii.eqb e "b" then 8%N
  else if Ascii.eqb e "f" then 12%N
  else if Ascii.eqb e "n" then 10%N
  else if Ascii.eqb e "r" then 13%N
  else if Ascii.eqb e "t" then 9%N
  else byteN e.

Fixpoint dropS (n : nat) (s : string) : string :=
  match n, s with
  | S n', String _ s' => dropS n' s'
  | _, _ => s
  end.

Fixpoint takeS (n : nat) (s : string) : string :=
  match n, s with
  | S n', String c s' => String c (takeS n' s')
  | _, _ => EmptyString
  end.

(** The runes of an unquoted string literal; [fuel] bounds the number of
    runes, and the length of the text is always enough. *)
Fixpoint unquoteLoop (fuel : nat) (s : string) : list N :=
  match fuel with
  | O => []
  | S fuel' =>
      match s with
      | EmptyString => []
      | String c s' =>
          if Ascii.eqb c bs then
            match s' with
            | EmptyString => []
            | String e s'' =>
                if Ascii.eqb e "u" then
                  match getu4 s with
                  | None => []
                  | Some (rr, rest) =>
                      if isSurrogate rr then
                        match getu4 rest with
                        | Some (rr1, rest1) =>
                            if (utf16_DecodeRune rr rr1 =? utf8.RuneError)%N
                            then utf8.RuneError :: unquoteLoop fuel' rest
                            else utf16_DecodeRune rr rr1
                                   :: unquoteLoop fuel' rest1
                        | None => utf8.RuneError :: unquoteLoop fuel' rest
                        end
                      else rr :: unquoteLoop fuel' rest
                  end
                else escapeRune e :: unquoteLoop fuel' s''
            end
          else if (byteN c <? 128)%N then byteN c :: unquoteLoop fuel' s'
          else
            let (r, size) := utf8.DecodeRuneInString s in
            r :: unquoteLoop fuel' (dropS size s)
      end
  end.

Definition unquote (raw : string) : list N :=
  unquoteLoop (String.length raw) raw.

(** [foldRune] after the ASCII case of [appendFoldedName]: the least rune
    of the case-folding orbit.  Only the orbits of [k] and [s] join an
    ASCII letter with other runes (U+212A and U+017F); the least rune of
    any other orbit is not ASCII, and is left as it is here, which is
    enough to compare with an ASCII field name. *)
Definition foldRune (r : N) : N :=
  if ((97 <=? r) && (r <=? 122))%N then (r - 32)%N
  else if (r =? 383)%N then 83%N
  else if (r =? 8490)%N then 75%N
  else r.

Definition foldName (runes : list N) : list N := List.map foldRune runes.

Fixpoint runesOf (s : string) : list N :=
  match s with
  | EmptyString => []
  | String c s' => byteN c :: runesOf s'
  end.

Fixpoint runes_eqb (a b : list N) : bool :=
  match a, b with
  | [], [] => true
  | x :: a', y :: b' => (x =? y)%N && runes_eqb a' b'
  | _, _ => false
  end.

(** Whether the key literal [raw] names the (ASCII-named) field [name]. *)
Definition keyMatches (raw : string) (name : string) : bool :=
  runes_eqb (foldName (unquote raw)) (foldName (runesOf name)).

(** ** Unmarshalling into the request payload

    [parseDelay] decodes into
    [struct { DelaySeconds int `json:"delaySeconds"` }]. *)
Record payload : Type := mkPayload { DelaySeconds : Z }.

Definition fieldName : string := "delaySeconds".

Definition payloadType : string :=
  "struct { DelaySeconds int " ++ String dq "json:"
  ++ String bs (String dq "delaySeconds") ++ String bs (String dq (str1 dq))
  ++ " }".

(** The decoding state: the struct being filled and the first error
    saved ([d.saveError] keeps the first one only). *)
Record decodeState : Type := mkDecodeState {
  target : payload;
  savedError : option error
}.

Definition saveError (e : error) (d : decodeState) : decodeState :=
  match savedError d with
  | Some _ => d
  | None => mkDecodeState (target d) (Some e)
  end.

(** Storing a value into the [int] field ([literalStore], [array],
    [object] on a destination of kind [Int]). *)
Definition storeInt (v : Value) (d : decodeState) : decodeState :=
  let mismatch what := saveError (json_UnmarshalTypeError what fieldName "int") d in
  match v with
  | Null => d
  | Bool _ => mismatch "bool"
  | Str _ => mismatch "string"
  | Number lit =>
      match strconv.ParseInt lit with
      | Some n => mkDecodeState (mkPayload n) (savedError d)
      | None => mismatch ("number " ++ lit)
      end
  | Array _ => mismatch "array"
  | Object _ => mismatch "object"
  end.

(** The members of an object, in input order; a member whose key names
    no field is skipped. *)
Fixpoint storeMembers (ms : list (string * Value)) (d : decodeState)
    : decodeState :=
  match ms with
  | [] => d
  | (k, v) :: ms' =>
      storeMembers ms' (if keyMatches k fieldName then storeInt v d else d)
  end.

(** [d.value] on the struct. *)
Definition storeStruct (v : Value) (d : decodeState) : decodeState :=
  let mismatch what :=
    saveError (json_UnmarshalTypeError what EmptyString payloadType) d in
  match v with
  | Null => d
  | Bool _ => mismatch "bool"
  | Str _ => mismatch "string"
  | Number _ => mismatch "number"
  | Array _ => mismatch "array"
  | Object ms => storeMembers ms d
  end.

(** [json.NewDecoder(body).Decode(&payload)], first call: the struct as the
    call leaves it, and the error returned. *)
Definition Decode (body : string) (p : payload) : payload * option error :=
  match readValue body with
  | readErr e => (p, Some e)
  | readOk v _ =>
      let d := storeStruct v (mkDecodeState p None) in
      (target d, savedError d)
  end.

(** ** Encoding ([encode.go]) *)

(** [htmlSafeSet]: the ASCII bytes written as they are. *)
Definition htmlSafe (b : ascii) : bool :=
  let n := byteN b in
  ((32 <=? n) && (n <? 128))%N
  && negb (Ascii.eqb b dq) && negb (Ascii.eqb b bs)
  && negb (Ascii.eqb b "<") && negb (Ascii.eqb b ">")
  && negb (Ascii.eqb b "&").

Definition escapeByte (b : ascii) : string :=
  if Ascii.eqb b bs || Ascii.eqb b dq then String bs (str1 b)
  else if (byteN b =? 8)%N then String bs "b"
  else if (byteN b =? 12)%N then String bs "f"
  else if (byteN b =? 10)%N then String bs "n"
  else if (byteN b =? 13)%N then String bs "r"
  else if (byteN b =? 9)%N then String bs "t"
  else String bs ("u00" ++ hex2 b).

(** The loop of [appendString] with HTML escaping on (the encoder's
    default); [fuel] bounds the number of runes. *)
Fixpoint appendStringLoop (fuel : nat) (src : string) : string :=
  match fuel with
  | O => EmptyString
  | S fuel' =>
      match src with
      | EmptyString => EmptyString
      | String b src' =>
          if (byteN b <? 128)%N then
            (if htmlSafe b then str1 b else escapeByte b)
            ++ appendStringLoop fuel' src'
          else
            let (c, size) := utf8.DecodeRuneInString src in
            if ((c =? utf8.RuneError)%N && (size =? 1)%nat)%bool
            then String bs "ufffd" ++ appendStringLoop fuel' src'
            else if ((c =? 8232) || (c =? 8233))%N
            then String bs ("u202" ++ str1 (hexDigit (N.land c 15)))
                 ++ appendStringLoop fuel' (dropS size src)
            else takeS size src ++ appendStringLoop fuel' (dropS size src)
      end
  end.

Definition stringBody (src : string) : string :=
  appendStringLoop (String.length src) src.

Definition appendString (src : string) : string := quoted (stringBody src).

(** A [map[string]string] is a list of pairs with distinct keys; the
    encoder writes its members sorted by key. *)
Definition gomap : Type := list (string * string).

Fixpoint insertMember (m : string * string) (l : gomap) : gomap :=
  match l with
  | [] => [m]
  | m' :: l' =>
      if String.leb (fst m) (fst m') then m :: l else m' :: insertMember m l'
  end.

Definition sortMembers (l : gomap) : gomap := List.fold_right insertMember [] l.

Definition encodeMember (m : string * string) : string :=
  appendString (fst m) ++ ":" ++ appendString (snd m).

Definition Marshal (m : gomap) : string :=
  "{" ++ String.concat "," (List.map encodeMember (sortMembers m)) ++ "}".

Definition newline : string := str1 (ofN 10).

(** [json.NewEncoder(w).Encode(m)] writes the encoding and a newline. *)
Definition Encode (m : gomap) : string := Marshal m ++ newline.

End json.

(* ================================================================== *)
(** * [time.Duration] *)

Module time.

Import strconv.

(** A [Duration] is an [int64] count of nanoseconds. *)
Definition Second : Z := 1000000000.
Definition minDuration : Z := minInt64.
Definition maxDuration : Z := maxInt64.

Definition uint64 (z : Z) : Z := z mod 2 ^ 64.

(** [time.Duration(n) * time.Second], in [int64] arithmetic. *)
Definition Seconds (n : Z) : Z := wrap64 (n * Second).

Definition lessThanHalf (x y : Z) : bool :=
  uint64 (uint64 x + uint64 x) <? uint64 y.

(** [d.Round(m)]. *)
Definition Round (d m : Z) : Z :=
  if m <=? 0 then d
  else
    let r := Z.rem d m in
    if d <? 0 then
      let r := - r in
      if lessThanHalf r m then wrap64 (d + r)
      else
        let d1 := wrap64 (d - m + r) in
        if d1 <? d then d1 else minDuration
    else if lessThanHalf r m then wrap64 (d - r)
    else
      let d1 := wrap64 (d + m - r) in
      if d1 >? d then d1 else maxDuration.

Definition digitChar (d : Z) : ascii := ofN (48 + Z.to_N d).

(** [fmtFrac]: the fraction of [v / 10^prec] is written in front of [buf],
    without its trailing zeros, and without the point when it is zero. *)
Fixpoint fmtFracLoop (prec : nat) (v : Z) (print : bool) (buf : string)
    : string * Z * bool :=
  match prec with
  | O => (buf, v, print)
  | S prec' =>
      let digit := v mod 10 in
      let print' := print || negb (digit =? 0) in
      fmtFracLoop prec' (v / 10) print'
        (if print' then String (digitChar digit) buf else buf)
  end.

Definition fmtFrac (buf : string) (v : Z) (prec : nat) : string * Z :=
  let '(buf', v', print) := fmtFracLoop prec v false buf in
  (if print then String "." buf' else buf', v').

(** [fmtInt]: [v] in decimal, in front of [buf]. *)
Definition fmtInt (buf : string) (v : Z) : string := FormatUint v ++ buf.

Definition micro : string := String (ofN 194) (str1 (ofN 181)).

(** [d.String()]: hours, minutes and seconds as [72h3m0.5s]; a duration
    under a second in a smaller unit; zero as [0s]. *)
Definition String_ (d : Z) : string :=
  let neg := d <? 0 in
  let u := if neg then uint64 (- uint64 d) else uint64 d in
  let body :=
    if u <? Second then
      if u =? 0 then "0s"
      else
        let '(unit_, prec) :=
          if u <? 1000 then ("ns", 0%nat)
          else if u <? 1000000 then (micro ++ "s", 3%nat)
          else ("ms", 6%nat) in
        let '(buf, u') := fmtFrac unit_ u prec in
        fmtInt buf u'
    else
      let '(buf, u1) := fmtFrac "s" u 9 in
      let buf := fmtInt buf (u1 mod 60) in
      let u2 := u1 / 60 in
      if u2 >? 0 then
        let buf := fmtInt (String "m" buf) (u2 mod 60) in
        let u3 := u2 / 60 in
        if u3 >? 0 then fmtInt (String "h" buf) u3 else buf
      else buf in
  if neg then String "-" body else body.

End time.

(* ================================================================== *)
(** * The HTTP control surface ([main.go]) *)

Module server.

(** ** Requests, responses and the world a handler acts on *)

(** [r.Body] is [None] for a nil body, else the bytes the body yields. *)
Record Request : Type := mkRequest {
  Method : string;
  Body : option string
}.

(** The [http.ResponseWriter]: headers set, the status once written, and
    the bytes written. *)
Record ResponseWriter : Type := mkResponseWriter {
  header : list (string * string);
  status : option Z;
  written : string
}.

(** What a handler can change: its response writer, the request body
    (closed or not), the log, and the commands run on the host. *)
Record World : Type := mkWorld {
  w : ResponseWriter;
  bodyClosed : bool;
  logged : list string;
  executed : list (list string)
}.

(** The host: [runtime.GOOS], and what running a command gives, [None]
    for exit status zero and [Some err] when the command cannot be spawned
    or exits non-zero. *)
Record Host : Type := mkHost {
  GOOS : string;
  Run : list string -> option error
}.

Definition newResponseWriter : ResponseWriter := mkResponseWriter [] None EmptyString.
Definition newWorld : World := mkWorld newResponseWriter false [] [].

(** ** A state monad over the world *)

Definition M (A : Type) : Type := World -> A * World.

Definition ret {A} (a : A) : M A := fun s => (a, s).

Definition bind {A B} (m : M A) (k : A -> M B) : M B :=
  fun s => let (a, s') := m s in k a s'.

Declare Scope go_scope.
Delimit Scope go_scope with go.
Notation "x <- m ;; k" := (bind m (fun x => k))
  (at level 61, m at next level, right associativity) : go_scope.
Notation "m ;; k" := (bind m (fun _ => k))
  (at level 61, right associativity) : go_scope.
Local Open Scope go_scope.

Definition onWriter (f : ResponseWriter -> ResponseWriter) : M unit :=
  fun s => (tt, mkWorld (f (w s)) (bodyClosed s) (logged s) (executed s)).

(** ** [net/http] and [log] *)

Definition StatusOK : Z := 200.
Definition StatusBadRequest : Z := 400.
Definition StatusMethodNotAllowed : Z := 405.
Definition StatusInternalServerError : Z := 500.
Definition StatusNotImplemented : Z := 501.
Definition MethodPost : string := "POST".

Fixpoint headerDel (k : string) (h : list (string * string))
    : list (string * string) :=
  match h with
  | [] => []
  | (k', v) :: h' =>
      if String.eqb k k' then headerDel k h' else (k', v) :: headerDel k h'
  end.

(** [w.Header().Set(k, v)]. *)
Definition HeaderSet (k v : string) : M unit :=
  onWriter (fun rw =>
    mkResponseWriter (headerDel k (header rw) ++ [(k, v)]) (status rw) (written rw)).

Definition HeaderDel (k : string) : M unit :=
  onWriter (fun rw =>
    mkResponseWriter (headerDel k (header rw)) (status rw) (written rw)).

(** [w.WriteHeader(code)]: the first call fixes the status. *)
Definition WriteHeader (code : Z) : M unit :=
  onWriter (fun rw =>
    match status rw with
    | Some _ => rw
    | None => mkResponseWriter (header rw) (Some code) (written rw)
    end).

(** [w.Write(data)]: an unset status becomes 200. *)
Definition Write (data : string) : M unit :=
  onWriter (fun rw =>
    mkResponseWriter (header rw)
      (match status rw with Some c => Some c | None => Some StatusOK end)
      (written rw ++ data)).

(** [http.Error(w, text, code)]: a plain-text reply. *)
Definition http_Error (text : string) (code : Z) : M unit :=
  HeaderDel "Content-Length" ;;
  HeaderSet "Content-Type" "text/plain; charset=utf-8" ;;
  HeaderSet "X-Content-Type-Options" "nosniff" ;;
  WriteHeader code ;;
  Write (text ++ json.newline).

(** [log.Printf]: one more line in the log (its time stamp left out). *)
Definition log_Printf (line : string) : M unit :=
  fun s => (tt, mkWorld (w s) (bodyClosed s) (logged s ++ [line]) (executed s)).

(** [r.Body.Close()]. *)
Definition BodyClose : M unit :=
  fun s => (tt, mkWorld (w s) true (logged s) (executed s)).

(** [exec.Command(name, args...).Run()]. *)
Definition exec_Run (h : Host) (name : string) (args : list string)
    : M (option error) :=
  fun s => (Run h (name :: args),
            mkWorld (w s) (bodyClosed s) (logged s)
              (executed s ++ [name :: args])).

(** [%v] of a [[]string]. *)
Definition fmt_v_strings (l : list string) : string :=
  "[" ++ String.concat " " l ++ "]".

(** ** [writeJSON] *)
Definition writeJSON (statusCode : Z) (payload : json.gomap) : M unit :=
  HeaderSet "Content-Type" "application/json" ;;
  WriteHeader statusCode ;;
  Write (json.Encode payload).

(** ** [parseDelay] *)
Definition parseDelay (r : Request) : M (Z * option error) :=
  match Body r with
  | None => ret (0, None)
  | Some body =>
      let '(payload, err) := json.Decode body (json.mkPayload 0) in
      let result :=
        match err with
        | Some e =>
            if errors_Is e sEOF then (0, None)
            else (0, Some (fmt_Errorf_w "invalid request body: " e))
        | None =>
            if json.DelaySeconds payload <? 0
            then (0, Some (errors_New "delaySeconds must be zero or positive"))
            else (json.DelaySeconds payload, None)
        end in
      BodyClose ;; ret result
  end.

(** ** [handlePowerAction] *)

(** The argument list handed to [shutdown]: a copy of the base arguments,
    then the delay flag and the delay in decimal. *)
Definition commandArgs (baseArgs : list string) (delaySeconds : Z)
    : list string :=
  ([] ++ baseArgs) ++ ["/t"; strconv.Itoa delaySeconds].

Definition successText (successMessage : string) (delaySeconds : Z) : string :=
  if delaySeconds >? 0 then
    let delay := time.Seconds delaySeconds in
    successMessage ++ " It will run in "
    ++ time.String_ (time.Round delay time.Second) ++ "."
  else successMessage.

Definition handlePowerAction (h : Host) (r : Request)
    (baseArgs : list string) (successMessage : string) : M unit :=
  if negb (String.eqb (Method r) MethodPost) then
    http_Error "method not allowed" StatusMethodNotAllowed
  else if negb (String.eqb (GOOS h) "windows") then
    writeJSON StatusNotImplemented
      [("message", "Power control commands are available only on Windows hosts.")]
  else
    res <- parseDelay r ;;
    let '(delaySeconds, err) := res in
    match err with
    | Some e => writeJSON StatusBadRequest [("message", Error e)]
    | None =>
        let args := commandArgs baseArgs delaySeconds in
        runErr <- exec_Run h "shutdown" args ;;
        match runErr with
        | Some e =>
            log_Printf ("power command failed (" ++ fmt_v_strings args ++ "): "
                        ++ Error e) ;;
            writeJSON StatusInternalServerError
              [("message", "Failed to execute power command.")]
        | None =>
            writeJSON StatusOK
              [("message", successText successMessage delaySeconds)]
        end
    end.

(** ** The three action handlers *)
Definition shutdownHandler (h : Host) (r : Request) : M unit :=
  handlePowerAction h r ["/s"]
    "Shutdown command staged. The machine is powering off.".

Definition restartHandler (h : Host) (r : Request) : M unit :=
  handlePowerAction h r ["/r"]
    "Restart command staged. The machine is restarting.".

Definition restartFirmwareHandler (h : Host) (r : Request) : M unit :=
  handlePowerAction h r ["/r"; "/fw"]
    "Firmware restart command staged. The machine will reboot into BIOS/UEFI.".

(** The three kinds of power action, one per handler and route
    ([/shutdown], [/restart], [/restart-bios]). *)
Inductive PowerActionKind : Type := Shutdown | Restart | RestartToFirmware.

Definition handlerOf (k : PowerActionKind) : Host -> Request -> M unit :=
  match k with
  | Shutdown => shutdownHandler
  | Restart => restartHandler
  | RestartToFirmware => restartFirmwareHandler
  end.

(** The base arguments and success message each handler passes on. *)
Definition baseArgsOf (k : PowerActionKind) : list string :=
  match k with
  | Shutdown => ["/s"]
  | Restart => ["/r"]
  | RestartToFirmware => ["/r"; "/fw"]
  end.

Definition successMessageOf (k : PowerActionKind) : string :=
  match k with
  | Shutdown => "Shutdown command staged. The machine is powering off."
  | Restart => "Restart command staged. The machine is restarting."
  | RestartToFirmware =>
      "Firmware restart command staged. The machine will reboot into BIOS/UEFI."
  end.

(** Serving one request with a fresh response writer. *)
Definition serve (k : PowerActionKind) (h : Host) (r : Request) : World :=
  snd (handlerOf k h r newWorld).

End server.

(* ================================================================== *)
(** * The service control loop ([service_windows.go]) and [main] *)

Module service.

(** ** The service manager's vocabulary ([golang.org/x/sys/windows/svc]) *)
Inductive State : Type :=
| Stopped | StartPending | StopPending | Running
| ContinuePending | PausePending | Paused.

Inductive Cmd : Type :=
| Stop | Pause | Continue | Interrogate | Shutdown | ParamChange
| OtherCmd (code : N).

Definition AcceptStop : N := 1.
Definition AcceptShutdown : N := 4.

Record Status : Type := mkStatus {
  State_ : State;
  Accepts : N
}.

(** ** [windowsService.Execute]

    [Execute] sends statuses on [changes], starts the HTTP server in a
    goroutine, and then waits, in a [select], for the server's result on
    [done] or for a request on [r].  Each receive is an [Event]; what
    [Execute] does in answer is a list of [Effect]s.  Which of two ready
    channels a [select] takes is not fixed, so [Execute] is followed along
    any sequence of events. *)
Inductive Event : Type :=
| Done (err : option error)
| Change (c : Cmd).

Inductive Effect : Type :=
| Report (s : Status)
| StartServer
| Cancel
| Log (line : string).

(** Where [Execute] stands: in the [select] loop, in the receive from
    [done] after [cancel()], or returned with its two results. *)
Inductive Control : Type :=
| Selecting (status : Status)
| AwaitingDone (status : Status)
| Returned (svcSpecificEC : bool) (exitCode : Z).

Definition accepts : N := N.lor AcceptStop AcceptShutdown.

Definition stoppedStatus : Status := mkStatus Stopped 0.

(** One receive.  A request that arrives while [Execute] waits on [done],
    or anything after it has returned, is not received: nothing happens.
    The deferred [cancel()] runs as [Execute] returns. *)
Definition step (c : Control) (e : Event) : Control * list Effect :=
  match c, e with
  | Selecting status, Done err =>
      (Returned false 0,
       (match err with
        | Some x => [Log ("service server exited: " ++ Error x)]
        | None => []
        end ++ [Report stoppedStatus; Cancel])%list)
  | Selecting status, Change Interrogate =>
      (Selecting status, [Report status])
  | Selecting status, Change (Stop | Shutdown) =>
      let status' := mkStatus StopPending accepts in
      (AwaitingDone status', [Report status'; Cancel])
  | Selecting status, Change _ => (Selecting status, [])
  | AwaitingDone status, Done err =>
      (Returned true 0,
       (match err with
        | Some x =>
            if negb (errors_Is x sCanceled)
            then [Log ("shutdown error: " ++ Error x)] else []
        | None => []
        end ++ [Report stoppedStatus; Cancel])%list)
  | AwaitingDone status, Change _ => (AwaitingDone status, [])
  | Returned a b, _ => (Returned a b, [])
  end.

Fixpoint run (c : Control) (evs : list Event) : Control * list Effect :=
  match evs with
  | [] => (c, [])
  | e :: evs' =>
      let (c1, out1) := step c e in
      let (c2, out2) := run c1 evs' in
      (c2, (out1 ++ out2)%list)
  end.

(** What [Execute] does before its loop, and the status it enters the
    loop with. *)
Definition runningStatus : Status := mkStatus Running accepts.

Definition prologue : list Effect :=
  [Report (mkStatus StartPending 0); StartServer; Report runningStatus].

Definition Execute (evs : list Event) : Control * list Effect :=
  let (c, out) := run (Selecting runningStatus) evs in
  (c, (prologue ++ out)%list).

(** The states reported to the service manager, in order. *)
Fixpoint reports (out : list Effect) : list State :=
  match out with
  | [] => []
  | Report s :: out' => State_ s :: reports out'
  | _ :: out' => reports out'
  end.

(** ** [runHTTPServer] *)

(** What [srv.ListenAndServe] does: the listener cannot bind and the call
    returns the bind error at once; or requests are served until the call
    returns, with [http.ErrServerClosed] after a [Shutdown]. *)
Inductive Serving : Type :=
| BindFailed (cause : string)
| Served (requests : list server.Request) (err : error).

Definition ListenAndServe (s : Serving) : error :=
  match s with
  | BindFailed cause => os_Error cause
  | Served _ err => err
  end.

Definition servedRequests (s : Serving) : list server.Request :=
  match s with
  | BindFailed _ => []
  | Served requests _ => requests
  end.

Definition listenAddr : string := ":8181".

Definition runHTTPServer (s : Serving) : option error * list string :=
  let err := ListenAndServe s in
  (if negb (errors_Is err sErrServerClosed) then Some err else None,
   ["Windows control web server listening on " ++ listenAddr]).

(** ** [maybeRunService] and [main] *)

(** The process's surroundings: what [svc.IsWindowsService] answers,
    whether the service dispatcher can be reached ([svc.Run] returns its
    error), what the listener does, and under the service manager the
    requests [Execute] receives before it receives the server's result. *)
Record Surroundings : Type := mkSurroundings {
  isService : bool;
  isServiceErr : option error;
  dispatcherErr : option error;
  serving : Serving;
  received : list Cmd
}.

(** How the process ends. *)
Record Outcome : Type := mkOutcome {
  exitStatus : Z;
  output : list string;
  served : list server.Request;
  effects : list Effect;
  serviceResult : option (bool * Z)
}.

(** [svc.Run(serviceName, &windowsService{})]: when the dispatcher is
    reached, [Execute] runs on the service's channels, its two results go
    to the service manager with the final status, and [Run] returns
    nil. *)
Definition svc_Run (e : Surroundings)
    : option error * list Effect * option (bool * Z) :=
  match dispatcherErr e with
  | Some err => (Some err, [], None)
  | None =>
      let evs := (List.map Change (received e)
                  ++ [Done (fst (runHTTPServer (serving e)))])%list in
      let (c, out) := Execute evs in
      (None, out,
       match c with
       | Returned a b => Some (a, b)
       | _ => None
       end)
  end.

Definition maybeRunService (e : Surroundings)
    : bool * option error * list Effect * option (bool * Z) :=
  match isServiceErr e with
  | Some err => (false, Some err, [], None)
  | None =>
      if negb (isService e) then (false, None, [], None)
      else let '(err, out, res) := svc_Run e in (true, err, out, res)
  end.

Fixpoint logLines (out : list Effect) : list string :=
  match out with
  | [] => []
  | Log line :: out' => line :: logLines out'
  | _ :: out' => logLines out'
  end.

(** [main]: [log.Fatalf] prints and exits with status 1; returning from
    [main] exits with status 0.  When [svc.Run] returns nil, [Execute] has
    run, and with it the HTTP server it starts. *)
Definition main (e : Surroundings) : Outcome :=
  let '(handled, err, out, res) := maybeRunService e in
  match err with
  | Some x =>
      mkOutcome 1 ["service initialization failed: " ++ Error x] [] out res
  | None =>
      if handled then
        mkOutcome 0 (snd (runHTTPServer (serving e)) ++ logLines out)%list
          (servedRequests (serving e)) out res
      else
        let (serr, lines) := runHTTPServer (serving e) in
        match serr with
        | Some x =>
            mkOutcome 1 (lines ++ [("server failed: " ++ Error x)%string])%list
              (servedRequests (serving e)) [] None
        | None => mkOutcome 0 lines (servedRequests (serving e)) [] None
        end
  end.

End service.

(* ================================================================== *)
(** * The vocabulary of the specification *)

Module spec.

Import server.

(** The two errors of the delay parser, by the names the specification
    gives them. *)
Definition InvalidDelay : error :=
  errors_New "delaySeconds must be zero or positive".

Definition MalformedRequest (cause : error) : error :=
  fmt_wrapError ("invalid request body: " ++ Error cause) cause.


(** A response body is a message envelope when the JSON decoder reads it
    as one object with the single member [message], a string, followed by
    the encoder's newline and nothing else. *)
Definition isMessageEnvelope (body : string) : Prop :=
  exists raw,
    json.readValue body
    = json.readOk (json.Object [("message", json.Str raw)]) json.newline.

(** The delay in words: hours, minutes and seconds of [d] seconds, the
    larger units left out while they are zero. *)
Definition restatement (d : Z) : string :=
  let h := d / 3600 in
  let m := (d / 60) mod 60 in
  let s := d mod 60 in
  if 0 <? h
  then strconv.Itoa h ++ "h" ++ strconv.Itoa m ++ "m" ++ strconv.Itoa s ++ "s"
  else if 0 <? m then strconv.Itoa m ++ "m" ++ strconv.Itoa s ++ "s"
  else strconv.Itoa s ++ "s".

(** The largest delay whose nanoseconds fit a [Duration]. *)
Definition maxDelaySeconds : Z := 9223372036.

(** The JSON reply with one [message]. *)
Definition jsonReply (code : Z) (message : string) : ResponseWriter :=
  mkResponseWriter [("Content-Type", "application/json")] (Some code)
    (json.Encode [("message", message)]).

Definition closeBody (s : World) : World :=
  mkWorld (w s) true (logged s) (executed s).

Definition hasBody (r : Request) : bool :=
  match Body r with Some _ => true | None => false end.

(** Sample requests and hosts: a POST with a body, the body
    [{"delaySeconds":n}], and a Windows host on which the command succeeds
    or exits with status 1. *)
Definition post (body : option string) : Request := mkRequest "POST" body.

Definition delayObject (n : string) : string :=
  "{" ++ quoted "delaySeconds" ++ ":" ++ n ++ "}".

Definition windowsHost (ok : bool) : Host :=
  mkHost "windows"
    (fun _ => if ok then None else Some (os_Error "exit status 1")).

End spec.

(** What the proofs keep track of. *)
Module invariants.

(** The number a decimal numeral denotes, most significant digit first. *)
Fixpoint uintValue (acc : Z) (u : Decimal.uint) : Z :=
  match u with
  | Nil => acc
  | D0 l => uintValue (10 * acc) l
  | D1 l => uintValue (10 * acc + 1) l
  | D2 l => uintValue (10 * acc + 2) l
  | D3 l => uintValue (10 * acc + 3) l
  | D4 l => uintValue (10 * acc + 4) l
  | D5 l => uintValue (10 * acc + 5) l
  | D6 l => uintValue (10 * acc + 6) l
  | D7 l => uintValue (10 * acc + 7) l
  | D8 l => uintValue (10 * acc + 8) l
  | D9 l => uintValue (10 * acc + 9) l
  end.


Definition payloadInRange (d : json.decodeState) : Prop :=
  strconv.inInt64 (json.DelaySeconds (json.target d)) = true.

(** The escapes of one letter the scanner accepts after a backslash. *)
Definition simpleEscape (c : ascii) : bool :=
  Ascii.eqb c "b" || Ascii.eqb c "f" || Ascii.eqb c "n"
  || Ascii.eqb c "r" || Ascii.eqb c "t" || Ascii.eqb c bs
  || Ascii.eqb c "/" || Ascii.eqb c dq.

(** The text of a string literal between its quotes: plain bytes, two-byte
    escapes and [\uXXXX] escapes. *)
Inductive okBody : string -> Prop :=
| ok_nil : okBody EmptyString
| ok_plain (c : ascii) (s : string) :
    (32 <=? byteN c)%N = true -> Ascii.eqb c dq = false ->
    Ascii.eqb c bs = false -> okBody s -> okBody (String c s)
| ok_escape (e : ascii) (s : string) :
    simpleEscape e = true -> okBody s -> okBody (String bs (String e s))
| ok_unicode (h1 h2 h3 h4 : ascii) (s : string) :
    isHex h1 = true -> isHex h2 = true -> isHex h3 = true ->
    isHex h4 = true -> okBody s ->
    okBody (String bs (String "u"
              (String h1 (String h2 (String h3 (String h4 s)))))).

End invariants.

Module lifecycle.
Import service.

Definition stopPendingStatus : Status := mkStatus StopPending accepts.

(** After [Running] has been reported, the reports are [Running] again,
    once per [Interrogate], and then what [tail] says, by where [Execute]
    stands: nothing in the loop, [StopPending] while it waits for the
    server after a stop, [StopPending] and [Stopped] when it has returned
    after a stop, [Stopped] alone when it has returned because the server
    ended. *)
Definition linear (res : Control * list Effect) : Prop :=
  exists n tail,
    reports (snd res) = (List.repeat Running n ++ tail)%list
    /\ ((fst res = Selecting runningStatus /\ tail = [])
        \/ (fst res = AwaitingDone stopPendingStatus /\ tail = [StopPending])
        \/ (fst res = Returned true 0 /\ tail = [StopPending; Stopped])
        \/ (fst res = Returned false 0 /\ tail = [Stopped])).

(** A process under the service manager, and one started by hand, whose
    listener cannot bind. *)
Definition supervised (cause : string) (received : list Cmd) : Surroundings :=
  mkSurroundings true None None (BindFailed cause) received.

Definition standalone (cause : string) : Surroundings :=
  mkSurroundings false None None (BindFailed cause) [].

End lifecycle.

(* ================================================================== *)
(** * The previous revision of the handlers ([src/unnamed/part_000]) *)

(** Before the delay was added, each handler passed its whole argument
    list, delay flag and zero included, and no request body was read. *)
Module previous.

Import server.
Local Open Scope go_scope.

Definition handlePowerAction (h : Host) (r : Request) (args : list string)
    (successMessage : string) : M unit :=
  if negb (String.eqb (Method r) MethodPost) then
    http_Error "method not allowed" StatusMethodNotAllowed
  else if negb (String.eqb (GOOS h) "windows") then
    writeJSON StatusNotImplemented
      [("message", "Power control commands are available only on Windows hosts.")]
  else
    runErr <- exec_Run h "shutdown" args ;;
    match runErr with
    | Some e =>
        log_Printf ("power command failed (" ++ fmt_v_strings args ++ "): "
                    ++ Error e) ;;
        writeJSON StatusInternalServerError
          [("message", "Failed to execute power command.")]
    | None => writeJSON StatusOK [("message", successMessage)]
    end.

Definition shutdownHandler (h : Host) (r : Request) : M unit :=
  handlePowerAction h r ["/s"; "/t"; "0"]
    "Shutdown command executed. The machine is powering off.".

Definition restartHandler (h : Host) (r : Request) : M unit :=
  handlePowerAction h r ["/r"; "/t"; "0"]
    "Restart command executed. The machine is restarting.".

Definition restartFirmwareHandler (h : Host) (r : Request) : M unit :=
  handlePowerAction h r ["/r"; "/fw"; "/t"; "0"]
    "Firmware restart command executed. The machine will reboot into BIOS/UEFI.".

Definition handlerOf (k : PowerActionKind) : Host -> Request -> M unit :=
  match k with
  | Shutdown => shutdownHandler
  | Restart => restartHandler
  | RestartToFirmware => restartFirmwareHandler
  end.

Definition serve (k : PowerActionKind) (h : Host) (r : Request) : World :=
  snd (handlerOf k h r newWorld).

End previous.

(* ================================================================== *)
(** * More vocabulary for stating properties *)

Module literals.

Fixpoint forallb_string (p : ascii -> bool) (s : string) : bool :=
  match s with
  | EmptyString => true
  | String c s' => p c && forallb_string p s'
  end.

Definition allDigits (s : string) : bool := forallb_string isDigit s.

(** A JSON integer without sign: [0], or digits that do not start with
    [0]. *)
Definition unsignedLiteral (s : string) : bool :=
  match s with
  | EmptyString => false
  | String c s' =>
      if Ascii.eqb c "0"
      then match s' with EmptyString => true | _ => false end
      else allDigits s
  end.

(** A JSON integer: an unsigned one, or a minus sign and an unsigned
    one. *)
Definition integerLiteral (s : string) : bool :=
  match s with
  | EmptyString => false
  | String c s' => if Ascii.eqb c "-" then unsignedLiteral s' else unsignedLiteral s
  end.

Definition isASCII (s : string) : bool :=
  forallb_string (fun c => (byteN c <? 128)%N) s.

(** The type mismatch [encoding/json] reports for the delay field. *)
Definition delayMismatch (lit : string) : error :=
  json_UnmarshalTypeError ("number " ++ lit) json.fieldName "int".

End literals.

Module supervision.
Import service.

Definition isDone (e : Event) : bool :=
  match e with Done _ => true | Change _ => false end.

(** The events [Execute] has a case for. *)
Definition answered (e : Event) : bool :=
  match e with
  | Done _ => true
  | Change (Interrogate | Stop | Shutdown) => true
  | Change _ => false
  end.

(** The process exit status, by its surroundings. *)
Definition exitStatusTable (e : Surroundings) : Z :=
  match isServiceErr e with
  | Some _ => 1
  | None =>
      if isService e then
        match dispatcherErr e with Some _ => 1 | None => 0 end
      else if errors_Is (ListenAndServe (serving e)) sErrServerClosed
      then 0 else 1
  end.

End supervision.

(* ================================================================== *)
(** * Facts about the library models *)

Lemma append_assoc (a b c : string) : (a ++ b) ++ c = a ++ (b ++ c).
Proof. induction a as [|x a IH]; simpl; [reflexivity | now rewrite IH]. Qed.

Lemma append_nil_r (a : string) : a ++ EmptyString = a.
Proof. induction a as [|x a IH]; simpl; [reflexivity | now rewrite IH]. Qed.

Module strconv_facts.
Import strconv invariants.

Lemma digitsValue_string_of_uint (u : Decimal.uint) (acc : Z) :
  digitsValue acc (NilEmpty.string_of_uint u) = Some (uintValue acc u).
Proof.
  revert acc; induction u; intros acc; [reflexivity | ..];
    simpl NilEmpty.string_of_uint; cbn [uintValue];
    unfold digitsValue; fold digitsValue;
    match goal with |- (if ?b then _ else _) = _ => change b with true end;
    cbv iota; rewrite IHu;
    set (k := Z.of_N (byteN _) - 48); vm_compute in k; subst k;
    do 2 f_equal; lia.
Qed.

Lemma uintValue_of_uint_acc (l : Decimal.uint) (p : positive) :
  uintValue (Z.pos p) l = Z.pos (Pos.of_uint_acc l p).
Proof.
  revert p; induction l; intros p; cbn [uintValue Pos.of_uint_acc];
    try reflexivity; rewrite <- IHl; f_equal; lia.
Qed.

Lemma uintValue_of_uint (u : Decimal.uint) :
  uintValue 0 u = Z.of_N (Pos.of_uint u).
Proof.
  induction u; cbn [uintValue Pos.of_uint]; try reflexivity; try assumption;
    apply (uintValue_of_uint_acc u).
Qed.

Lemma isDigit_not_sign (c : ascii) :
  isDigit c = true -> Ascii.eqb c "-" = false /\ Ascii.eqb c "+" = false.
Proof.
  intros H; split; destruct (Ascii.eqb_spec c "-"), (Ascii.eqb_spec c "+");
    subst; try reflexivity; discriminate H.
Qed.

Lemma ParseInt_digits (s : string) (z : Z) :
  s <> EmptyString -> digitsValue 0 s = Some z -> 0 <= z < 2 ^ 63 ->
  ParseInt s = Some z.
Proof.
  intros Hne Hv Hz. destruct s as [|c s]; [congruence|].
  unfold ParseInt, ParseUint.
  assert (Hd : isDigit c = true).
  { simpl in Hv. destruct (isDigit c); [reflexivity | discriminate]. }
  destruct (isDigit_not_sign c Hd) as [-> ->]. simpl orb. cbv iota.
  rewrite Hv.
  replace (z <? 2 ^ 64) with true by (symmetry; apply Z.ltb_lt; lia).
  replace (2 ^ 63 <=? z) with false by (symmetry; apply Z.leb_gt; lia).
  reflexivity.
Qed.

Lemma Itoa_pos (p : positive) :
  Itoa (Z.pos p) = NilEmpty.string_of_uint (Pos.to_uint p).
Proof.
  unfold Itoa. simpl. unfold NilZero.string_of_uint.
  destruct (Pos.to_uint p) eqn:E; try reflexivity.
  exfalso. now apply (DecimalPos.Unsigned.to_uint_nonnil p).
Qed.

Lemma digitsValue_Itoa (d : Z) : 0 <= d -> digitsValue 0 (Itoa d) = Some d.
Proof.
  intros Hd. destruct d as [|p|p]; [reflexivity | | lia].
  rewrite Itoa_pos, digitsValue_string_of_uint, uintValue_of_uint.
  now rewrite DecimalPos.Unsigned.of_to.
Qed.

Lemma Itoa_nonempty (d : Z) : 0 <= d -> Itoa d <> EmptyString.
Proof.
  intros Hd. destruct d as [|p|p]; [discriminate | | lia].
  rewrite Itoa_pos. intros E.
  pose proof (NilEmpty.usu (Pos.to_uint p)) as U. rewrite E in U. simpl in U.
  injection U as U. symmetry in U. now apply (DecimalPos.Unsigned.to_uint_nonnil p).
Qed.

Lemma ParseInt_Itoa (d : Z) : 0 <= d <= maxInt64 -> ParseInt (Itoa d) = Some d.
Proof.
  intros Hd. apply ParseInt_digits.
  - apply Itoa_nonempty; lia.
  - apply digitsValue_Itoa; lia.
  - unfold maxInt64 in Hd. lia.
Qed.

Lemma FormatUint_Itoa (v : Z) : 0 <= v -> FormatUint v = Itoa v.
Proof. intros Hv. destruct v; [reflexivity | reflexivity | lia]. Qed.

Lemma wrap64_small (z : Z) : minInt64 <= z <= maxInt64 -> wrap64 z = z.
Proof.
  unfold minInt64, maxInt64, wrap64. intros H.
  rewrite Z.mod_small; lia.
Qed.

End strconv_facts.

Module json_facts.
Import json invariants.

Lemma stepByte_reset_space (c : ascii) :
  isSpace c = true -> stepByte reset c = scanContinue reset.
Proof.
  intros H. unfold stepByte, reset; simpl. unfold stepBeginValue.
  now rewrite H.
Qed.

(** A body without a non-space byte reads as [io.EOF]. *)
Lemma readLoop_blank (buf b : string) :
  nonSpace buf = false -> nonSpace b = false ->
  readLoop buf reset b = readErr io_EOF.
Proof.
  intros Hbuf. induction b as [|c b IH]; intros Hb.
  - simpl. now rewrite Hbuf.
  - unfold nonSpace in Hb. simpl in Hb. apply orb_false_elim in Hb.
    destruct Hb as [Hc Hb]. apply negb_false_iff in Hc.
    simpl. rewrite (stepByte_reset_space c Hc). now apply IH.
Qed.








Lemma Decode_blank (body : string) (p : payload) :
  nonSpace body = false -> Decode body p = (p, Some io_EOF).
Proof.
  intros H. unfold Decode, readValue. now rewrite readLoop_blank.
Qed.


Lemma digitsValue_le (s : string) (acc v : Z) :
  strconv.digitsValue acc s = Some v -> 0 <= acc -> 0 <= v.
Proof.
  revert acc. induction s as [|c s IH]; intros acc; cbn [strconv.digitsValue].
  - intros [= <-]; auto.
  - destruct (isDigit c) eqn:D; [|discriminate]. intros H Hacc.
    apply (IH _ H). unfold isDigit in D. apply andb_prop in D.
    destruct D as [D _]. apply N.leb_le in D. lia.
Qed.

(** The decoded delay is an [int]. *)
Lemma ParseInt_range (s : string) (n : Z) :
  strconv.ParseInt s = Some n -> strconv.inInt64 n = true.
Proof.
  unfold strconv.ParseInt, strconv.ParseUint, strconv.inInt64,
    strconv.minInt64, strconv.maxInt64.
  destruct s as [|c s]; [discriminate|].
  set (body := if (c =? "+")%char || (c =? "-")%char then s else String c s).
  destruct body as [|c' body']; [discriminate|].
  destruct (strconv.digitsValue 0 (String c' body')) as [un|] eqn:V;
    [|discriminate].
  apply digitsValue_le in V; [|lia].
  destruct (un <? 2 ^ 64); [|discriminate].
  destruct (c =? "-")%char; cbn [negb andb].
  - destruct (2 ^ 63 <? un) eqn:E; [discriminate|]. intros [= <-].
    apply Z.ltb_ge in E. apply andb_true_intro; split; apply Z.leb_le; lia.
  - destruct (2 ^ 63 <=? un) eqn:E; [discriminate|]. intros [= <-].
    apply Z.leb_gt in E. apply andb_true_intro; split; apply Z.leb_le; lia.
Qed.

Lemma storeInt_range (v : Value) (d : decodeState) :
  payloadInRange d -> payloadInRange (storeInt v d).
Proof.
  unfold payloadInRange, storeInt, saveError. intros H.
  destruct v; try (destruct (savedError d); exact H).
  destruct (strconv.ParseInt lit) eqn:P.
  - simpl. eapply ParseInt_range; eauto.
  - destruct (savedError d); exact H.
Qed.

Lemma storeMembers_range (ms : list (string * Value)) (d : decodeState) :
  payloadInRange d -> payloadInRange (storeMembers ms d).
Proof.
  revert d. induction ms as [|[k v] ms IH]; intros d H; simpl; auto.
  apply IH. destruct (keyMatches k fieldName); auto using storeInt_range.
Qed.

Lemma Decode_range (body : string) (p : payload) :
  strconv.inInt64 (DelaySeconds p) = true ->
  strconv.inInt64 (DelaySeconds (fst (Decode body p))) = true.
Proof.
  intros H. unfold Decode. destruct (readValue body) as [v rest|e]; [|exact H].
  cbn [fst]. change (payloadInRange (storeStruct v (mkDecodeState p None))).
  assert (H0 : payloadInRange (mkDecodeState p None)) by exact H.
  destruct v; simpl; unfold saveError; simpl; auto using storeMembers_range.
Qed.

End json_facts.

Module encode_facts.
Import json invariants.

Lemma okBody_app (a b : string) : okBody a -> okBody b -> okBody (a ++ b).
Proof.
  intros Ha Hb. induction Ha; simpl; auto using okBody.
Qed.

Lemma readLoop_cons (buf : string) (s : scanner) (c : ascii) (b : string) :
  readLoop buf s (String c b)
  = match stepByte s c with
    | scanContinue s' => readLoop buf s' b
    | scanEnd v true => readOk v b
    | scanEnd v false => readOk v (String c b)
    | scanError msg => readErr (json_SyntaxError msg)
    end.
Proof. reflexivity. Qed.

Lemma append_nil_l (a : string) : EmptyString ++ a = a.
Proof. reflexivity. Qed.

Lemma append_cons (c : ascii) (a b : string) :
  String c a ++ b = String c (a ++ b).
Proof. reflexivity. Qed.

(** The scanner runs through the text of a string literal and stays
    inside the string. *)
Lemma scan_okBody (E : string) :
  okBody E ->
  forall buf acc st rest,
    readLoop buf (mkScanner (stateInString acc) st) (E ++ rest)
    = readLoop buf (mkScanner (stateInString (acc ++ E)) st) rest.
Proof.
  induction 1 as [|c s Hlo Hdq Hbs _ IH|e s He _ IH
                  |h1 h2 h3 h4 s H1 H2 H3 H4 _ IH];
    intros buf acc st rest.
  - now rewrite append_nil_r.
  - rewrite append_cons, readLoop_cons. unfold stepByte; cbn [step stack].
    rewrite Hdq, Hbs.
    replace (byteN c <? 32)%N with false
      by (symmetry; apply N.ltb_ge; now apply N.leb_le).
    rewrite IH. unfold snoc, str1. now rewrite append_assoc.
  - rewrite !append_cons, readLoop_cons. unfold stepByte at 1; cbn [step stack].
    change (Ascii.eqb bs dq) with false. change (Ascii.eqb bs bs) with true.
    cbv iota. rewrite readLoop_cons. unfold stepByte at 1; cbn [step stack].
    unfold simpleEscape in He. rewrite He.
    rewrite IH. unfold snoc, str1. now rewrite !append_assoc.
  - rewrite !append_cons, readLoop_cons. unfold stepByte at 1; cbn [step stack].
    change (Ascii.eqb bs dq) with false. change (Ascii.eqb bs bs) with true.
    cbv iota. rewrite readLoop_cons. unfold stepByte at 1; cbn [step stack].
    change (Ascii.eqb "u" "b" || Ascii.eqb "u" "f" || Ascii.eqb "u" "n"
            || Ascii.eqb "u" "r" || Ascii.eqb "u" "t" || Ascii.eqb "u" bs
            || Ascii.eqb "u" "/" || Ascii.eqb "u" dq) with false.
    change (Ascii.eqb "u" "u") with true. cbv iota.
    rewrite readLoop_cons; unfold stepByte at 1; cbn [step stack]; rewrite H1.
    rewrite readLoop_cons; unfold stepByte at 1; cbn [step stack]; rewrite H2.
    rewrite readLoop_cons; unfold stepByte at 1; cbn [step stack]; rewrite H3.
    rewrite readLoop_cons; unfold stepByte at 1; cbn [step stack]; rewrite H4.
    rewrite IH. unfold snoc, str1. now rewrite !append_assoc.
Qed.

Lemma escapeByte_ok (b : ascii) : okBody (escapeByte b).
Proof.
  destruct b as [[] [] [] [] [] [] [] []]; vm_compute;
    first [ apply ok_escape; [reflexivity | apply ok_nil]
          | apply ok_unicode; try reflexivity; apply ok_nil ].
Qed.

Lemma htmlSafe_plain (b : ascii) (s : string) :
  htmlSafe b = true -> okBody s -> okBody (String b s).
Proof.
  unfold htmlSafe. intros H Hs.
  repeat (apply andb_prop in H; destruct H as [H ?]).
  repeat match goal with
         | X : negb _ = true |- _ => apply negb_true_iff in X
         end.
  apply ok_plain; auto.
Qed.

Lemma high_plain (c : ascii) (s : string) :
  (128 <= byteN c)%N -> okBody s -> okBody (String c s).
Proof.
  intros H Hs. apply ok_plain; auto.
  - apply N.leb_le. lia.
  - destruct (Ascii.eqb_spec c dq); [subst | reflexivity].
    apply N.leb_le in H. vm_compute in H. discriminate H.
  - destruct (Ascii.eqb_spec c bs); [subst | reflexivity].
    apply N.leb_le in H. vm_compute in H. discriminate H.
Qed.

Lemma firstInfo_lo (c : ascii) (sz : nat) (lo hi : N) :
  utf8.firstInfo c = Some (sz, lo, hi) -> (128 <= lo)%N.
Proof.
  unfold utf8.firstInfo.
  repeat match goal with
         | |- context [if ?b then _ else _] => destruct b
         end; intros [= <- <- <-] || discriminate; lia.
Qed.

Lemma inRange_high (lo hi : N) (c : ascii) :
  (128 <= lo)%N -> utf8.inRange lo hi c = true -> (128 <= byteN c)%N.
Proof.
  unfold utf8.inRange. intros Hlo H. apply andb_prop in H.
  destruct H as [H _]. apply N.leb_le in H. lia.
Qed.

(** The bytes of a rune that decodes are all above the ASCII range. *)
Lemma decoded_bytes_ok (src : string) (c : N) (size : nat) :
  utf8.DecodeRuneInString src = (c, size) ->
  (forall b src', src = String b src' -> (byteN b <? 128)%N = false) ->
  ((c =? utf8.RuneError)%N && (size =? 1)%nat)%bool = false ->
  okBody (takeS size src).
Proof.
  intros D Hhigh Hvalid.
  assert (Bad : (utf8.RuneError, 1%nat) <> (c, size)).
  { intros [= <- <-]. discriminate Hvalid. }
  unfold utf8.DecodeRuneInString in D.
  destruct src as [|s0 t0]; [injection D as <- <-; apply ok_nil|].
  pose proof (Hhigh s0 t0 eq_refl) as H0. rewrite H0 in D.
  apply N.ltb_ge in H0.
  destruct (utf8.firstInfo s0) as [[[sz lo] hi]|] eqn:F; [|congruence].
  apply firstInfo_lo in F.
  destruct t0 as [|s1 t1]; [congruence|].
  destruct (utf8.inRange lo hi s1) eqn:R1; cbn [negb] in D; [|congruence].
  apply (inRange_high _ _ _ F) in R1.
  destruct (sz <=? 2)%nat.
  { injection D as <- <-. cbn [takeS]. auto using high_plain, ok_nil. }
  destruct t1 as [|s2 t2]; [congruence|].
  destruct (utf8.inRange 128 191 s2) eqn:R2; cbn [negb] in D; [|congruence].
  apply inRange_high in R2; [|lia].
  destruct (sz <=? 3)%nat.
  { injection D as <- <-. cbn [takeS]. auto using high_plain, ok_nil. }
  destruct t2 as [|s3 t3]; [congruence|].
  destruct (utf8.inRange 128 191 s3) eqn:R3; cbn [negb] in D; [|congruence].
  apply inRange_high in R3; [|lia].
  injection D as <- <-. cbn [takeS]. auto 6 using high_plain, ok_nil.
Qed.

Lemma appendStringLoop_ok (fuel : nat) (src : string) :
  okBody (appendStringLoop fuel src).
Proof.
  revert src. induction fuel as [|fuel IH]; intros src; [apply ok_nil|].
  cbn [appendStringLoop]. destruct src as [|b src']; [apply ok_nil|].
  destruct (byteN b <? 128)%N eqn:A.
  - destruct (htmlSafe b) eqn:S.
    + apply htmlSafe_plain; auto.
    + apply okBody_app; auto using escapeByte_ok.
  - destruct (utf8.DecodeRuneInString (String b src')) as [c size] eqn:D.
    destruct ((c =? utf8.RuneError)%N && (size =? 1)%nat)%bool eqn:V.
    + apply (ok_unicode "f" "f" "f" "d"); auto.
    + destruct ((c =? 8232) || (c =? 8233))%N eqn:L.
      * apply orb_prop in L.
        destruct L as [L|L]; apply N.eqb_eq in L; subst c;
          apply (ok_unicode "2" "0" "2"); auto.
      * apply okBody_app; auto.
        apply (decoded_bytes_ok _ c size D); auto.
        intros b0 src0 [= <- <-]. exact A.
Qed.

(** The encoding of a one-message map reads back as an object with the
    one member [message], a string, and the encoder's newline is left. *)
Lemma Encode_message_reads (msg : string) :
  readValue (Encode [("message", msg)])
  = readOk (Object [("message", Str (stringBody msg))]) newline.
Proof.
  pose proof (appendStringLoop_ok (String.length msg) msg) as OK.
  fold (stringBody msg) in OK.
  assert (E : Encode [("message", msg)]
              = "{" ++ quoted "message" ++ ":"
                ++ String dq (stringBody msg ++ String dq ("}" ++ newline))).
  { unfold Encode, Marshal, sortMembers, encodeMember, appendString, quoted.
    cbn [List.fold_right insertMember List.map String.concat fst snd].
    change (stringBody "message") with "message".
    unfold str1.
    repeat first [ rewrite append_assoc | rewrite append_cons
                 | rewrite append_nil_l ].
    reflexivity. }
  rewrite E. generalize dependent (stringBody msg). intros body OK _.
  unfold readValue. cbn -[newline].
  rewrite (scan_okBody body OK). reflexivity.
Qed.

End encode_facts.

Module time_facts.
Import time spec strconv_facts.

Lemma fmtFracLoop_zeros (n : nat) (v : Z) (buf : string) :
  fmtFracLoop n (v * 10 ^ Z.of_nat n) false buf = (buf, v, false).
Proof.
  revert v buf. induction n as [|n IH]; intros v buf.
  - cbn [fmtFracLoop]. now rewrite Z.mul_1_r.
  - cbn [fmtFracLoop]. rewrite Nat2Z.inj_succ, Z.pow_succ_r by lia.
    replace (v * (10 * 10 ^ Z.of_nat n)) with (v * 10 ^ Z.of_nat n * 10) by lia.
    rewrite Z.mod_mul, Z.div_mul by lia. cbn [Z.eqb negb orb]. apply IH.
Qed.

Lemma Seconds_small (d : Z) :
  0 <= d <= maxDelaySeconds -> Seconds d = d * Second.
Proof.
  unfold maxDelaySeconds, Seconds, Second. intros H.
  apply wrap64_small. unfold strconv.minInt64, strconv.maxInt64. lia.
Qed.

Lemma Round_whole_seconds (d : Z) :
  0 <= d <= maxDelaySeconds -> Round (d * Second) Second = d * Second.
Proof.
  unfold maxDelaySeconds. intros H. unfold Round.
  change (Second <=? 0) with false. cbv iota.
  rewrite Z.rem_mul by (unfold Second; lia).
  replace (d * Second <? 0) with false
    by (symmetry; apply Z.ltb_ge; unfold Second; lia).
  change (lessThanHalf 0 Second) with true. cbv iota.
  rewrite Z.sub_0_r. apply wrap64_small.
  unfold strconv.minInt64, strconv.maxInt64, Second. lia.
Qed.

(** A whole number of seconds, at least one, prints as hours, minutes and
    seconds. *)
Lemma String_whole_seconds (d : Z) :
  0 < d <= maxDelaySeconds -> String_ (d * Second) = restatement d.
Proof.
  unfold maxDelaySeconds. intros H. unfold String_.
  replace (d * Second <? 0) with false
    by (symmetry; apply Z.ltb_ge; unfold Second; lia).
  assert (U : uint64 (d * Second) = d * Second).
  { unfold uint64. apply Z.mod_small. unfold Second. lia. }
  rewrite U.
  replace (d * Second <? Second) with false
    by (symmetry; apply Z.ltb_ge; unfold Second; lia).
  unfold fmtFrac.
  change Second with (10 ^ Z.of_nat 9). rewrite fmtFracLoop_zeros.
  unfold fmtInt, restatement.
  pose proof (Z.mod_pos_bound d 60 ltac:(lia)) as B1.
  pose proof (Z.mod_pos_bound (d / 60) 60 ltac:(lia)) as B2.
  pose proof (Z.div_pos d 60 ltac:(lia) ltac:(lia)) as B3.
  pose proof (Z.div_pos (d / 60) 60 B3 ltac:(lia)) as B4.
  rewrite !FormatUint_Itoa by lia.
  replace (d / 3600) with (d / 60 / 60)
    by (rewrite Z.div_div by lia; reflexivity).
  destruct (d / 60 >? 0) eqn:M.
  - apply Z.gtb_lt in M. destruct (d / 60 / 60 >? 0) eqn:Hh.
    + apply Z.gtb_lt in Hh. apply Z.ltb_lt in Hh. rewrite Hh.
      reflexivity.
    + assert (H0 : d / 60 / 60 = 0).
      { pose proof (Z.gtb_spec (d / 60 / 60) 0) as G. rewrite Hh in G.
        inversion G. pose proof (Z.div_pos (d / 60) 60). lia. }
      rewrite H0. cbn [Z.ltb Z.compare].
      assert (Hm : (d / 60) mod 60 = d / 60).
      { apply Z.mod_small. split; [lia|].
        apply Z.div_small_iff in H0; lia. }
      rewrite Hm. apply Z.ltb_lt in M. rewrite M.
      reflexivity.
  - assert (H0 : d / 60 = 0).
    { pose proof (Z.gtb_spec (d / 60) 0) as G. rewrite M in G.
      inversion G. pose proof (Z.div_pos d 60). lia. }
    rewrite H0. reflexivity.
Qed.

End time_facts.

(* ================================================================== *)
(** * The request pipeline *)

Module server_facts.
Import server spec json_facts strconv_facts.

(** [parseDelay] gives the same result in every world, and changes the
    world only by closing a body that is there. *)
Lemma parseDelay_eq (r : Request) (s : World) :
  parseDelay r s
  = (fst (parseDelay r newWorld),
     match Body r with None => s | Some _ => closeBody s end).
Proof.
  unfold parseDelay. destruct (Body r) as [body|]; [|reflexivity].
  destruct (json.Decode body (json.mkPayload 0)) as [p [e|]]; reflexivity.
Qed.

(** A delay that [parseDelay] returns without an error is a non-negative
    [int]. *)
Lemma parseDelay_valid (r : Request) (s : World) (d : Z) :
  fst (parseDelay r s) = (d, None) -> 0 <= d <= strconv.maxInt64.
Proof.
  unfold parseDelay. destruct (Body r) as [body|].
  - pose proof (Decode_range body (json.mkPayload 0) eq_refl) as R.
    destruct (json.Decode body (json.mkPayload 0)) as [p [e|]]; cbn [fst] in *.
    + destruct (errors_Is e sEOF); simpl; intros [= <-];
        unfold strconv.maxInt64; lia.
    + destruct (json.DelaySeconds p <? 0) eqn:N; simpl; [discriminate|].
      intros [= <-]. apply Z.ltb_ge in N. unfold strconv.inInt64 in R.
      apply andb_prop in R. destruct R as [_ R]. apply Z.leb_le in R. lia.
  - simpl. intros [= <-]. unfold strconv.maxInt64. lia.
Qed.

Lemma parseDelay_missing (r : Request) :
  Body r = None -> fst (parseDelay r newWorld) = (0, None).
Proof. intros H. unfold parseDelay. now rewrite H. Qed.

Lemma parseDelay_blank (r : Request) (body : string) :
  Body r = Some body -> json.nonSpace body = false ->
  fst (parseDelay r newWorld) = (0, None).
Proof.
  intros H Hb. unfold parseDelay. rewrite H.
  now rewrite (Decode_blank body _ Hb).
Qed.




(** ** The four ways a request is served *)

Lemma serve_wrong_method (k : PowerActionKind) (h : Host) (r : Request) :
  Method r <> MethodPost ->
  serve k h r
  = mkWorld
      (mkResponseWriter
         [("Content-Type", "text/plain; charset=utf-8");
          ("X-Content-Type-Options", "nosniff")]
         (Some StatusMethodNotAllowed)
         ("method not allowed" ++ json.newline))
      false [] [].
Proof.
  intros Hm. apply String.eqb_neq in Hm.
  unfold serve; destruct k; cbn [handlerOf];
    unfold shutdownHandler, restartHandler, restartFirmwareHandler,
      handlePowerAction; rewrite Hm; reflexivity.
Qed.

Lemma serve_unsupported (k : PowerActionKind) (h : Host) (r : Request) :
  Method r = MethodPost -> GOOS h <> "windows" ->
  serve k h r
  = mkWorld
      (jsonReply StatusNotImplemented
         "Power control commands are available only on Windows hosts.")
      false [] [].
Proof.
  intros Hm Hg. apply String.eqb_neq in Hg.
  unfold serve; destruct k; cbn [handlerOf];
    unfold shutdownHandler, restartHandler, restartFirmwareHandler,
      handlePowerAction; rewrite Hm, Hg; reflexivity.
Qed.

Lemma serve_bad_request (k : PowerActionKind) (h : Host) (r : Request)
    (d : Z) (e : error) :
  Method r = MethodPost -> GOOS h = "windows" ->
  fst (parseDelay r newWorld) = (d, Some e) ->
  serve k h r = mkWorld (jsonReply StatusBadRequest (Error e)) (hasBody r) [] [].
Proof.
  intros Hm Hg HP.
  unfold serve; destruct k; cbn [handlerOf];
    unfold shutdownHandler, restartHandler, restartFirmwareHandler,
      handlePowerAction; rewrite Hm, Hg; cbn [negb];
    change (String.eqb MethodPost MethodPost) with true;
    change (String.eqb "windows" "windows") with true; cbn [negb];
    unfold bind at 1; rewrite parseDelay_eq, HP; unfold hasBody;
    destruct (Body r); reflexivity.
Qed.

Lemma serve_run (k : PowerActionKind) (h : Host) (r : Request) (d : Z) :
  Method r = MethodPost -> GOOS h = "windows" ->
  fst (parseDelay r newWorld) = (d, None) ->
  let command := "shutdown" :: commandArgs (baseArgsOf k) d in
  serve k h r
  = match Run h command with
    | Some e =>
        mkWorld
          (jsonReply StatusInternalServerError
             "Failed to execute power command.")
          (hasBody r)
          ["power command failed ("
           ++ fmt_v_strings (commandArgs (baseArgsOf k) d) ++ "): " ++ Error e]
          [command]
    | None =>
        mkWorld (jsonReply StatusOK (successText (successMessageOf k) d))
          (hasBody r) [] [command]
    end.
Proof.
  intros Hm Hg HP.
  unfold serve; destruct k; cbn [handlerOf];
    unfold shutdownHandler, restartHandler, restartFirmwareHandler,
      handlePowerAction; rewrite Hm, Hg; cbn [negb];
    change (String.eqb MethodPost MethodPost) with true;
    change (String.eqb "windows" "windows") with true; cbn [negb];
    unfold bind at 1; rewrite parseDelay_eq, HP; cbv zeta;
    unfold bind at 1, exec_Run; cbn [baseArgsOf successMessageOf];
    match goal with |- context [Run h ?c] => destruct (Run h c) end;
    unfold hasBody; destruct (Body r); reflexivity.
Qed.

(** ** The delay parser *)



(** ** The command translator *)

Lemma Itoa_not_flag (d : Z) :
  0 <= d <= strconv.maxInt64 -> strconv.Itoa d <> "/t".
Proof.
  intros Hd E. pose proof (ParseInt_Itoa d Hd) as P. rewrite E in P.
  discriminate P.
Qed.

(** C1.  For each kind of action and each validated delay [d] (a
    non-negative [int]), the arguments are the base flags of the kind and
    then the delay flag with [d] in decimal: [/s /t d] for a shutdown,
    [/r /t d] for a restart, [/r /fw /t d] for a restart to firmware.  The
    delay flag occurs once, its value reads back as [d], and these are the
    arguments of the one command the handler runs. *)
Theorem command_translation (k : PowerActionKind) (d : Z) :
  0 <= d <= strconv.maxInt64 ->
  commandArgs (baseArgsOf k) d
  = (baseArgsOf k ++ ["/t"; strconv.Itoa d])%list
  /\ commandArgs (baseArgsOf Shutdown) d = ["/s"; "/t"; strconv.Itoa d]
  /\ commandArgs (baseArgsOf Restart) d = ["/r"; "/t"; strconv.Itoa d]
  /\ commandArgs (baseArgsOf RestartToFirmware) d
     = ["/r"; "/fw"; "/t"; strconv.Itoa d]
  /\ List.count_occ string_dec (commandArgs (baseArgsOf k) d) "/t" = 1%nat
  /\ strconv.ParseInt (strconv.Itoa d) = Some d
  /\ (forall h r,
        Method r = MethodPost -> GOOS h = "windows" ->
        fst (parseDelay r newWorld) = (d, None) ->
        executed (serve k h r)
        = ["shutdown" :: commandArgs (baseArgsOf k) d]).
Proof.
  intros Hd. do 4 (split; [reflexivity|]). split; [|split].
  - pose proof (Itoa_not_flag d Hd) as N.
    destruct k; unfold commandArgs; cbn [baseArgsOf List.app List.count_occ];
      repeat match goal with
             | |- context [string_dec ?a ?b] =>
                 destruct (string_dec a b); try discriminate; try congruence
             end.
  - apply ParseInt_Itoa; exact Hd.
  - intros h r Hm Hg HP. rewrite (serve_run k h r d Hm Hg HP). cbv zeta.
    destruct (Run h _); reflexivity.
Qed.

Lemma command_translation_witness :
  commandArgs (baseArgsOf RestartToFirmware) 30 = ["/r"; "/fw"; "/t"; "30"]
  /\ executed (serve RestartToFirmware (windowsHost true)
                 (post (Some (delayObject "30"))))
     = [["shutdown"; "/r"; "/fw"; "/t"; "30"]].
Proof.
  assert (H : 0 <= 30 <= strconv.maxInt64) by (unfold strconv.maxInt64; lia).
  split.
  - exact (proj1 (proj2 (proj2 (proj2
             (command_translation RestartToFirmware 30 H))))).
  - exact (proj2 (proj2 (proj2 (proj2 (proj2 (proj2
             (command_translation RestartToFirmware 30 H))))))
             (windowsHost true) (post (Some (delayObject "30")))
             eq_refl eq_refl eq_refl).
Defined.

(** ** Requests that never reach the command *)







(** ** What the delay parser lets through *)

(** C10.  The delay parser decodes the first JSON value of the body and
    leaves the rest unread: an object followed by any bytes gives its
    delay, and the body [null] gives 0; neither is an error. *)
Theorem first_value_only :
  (forall tail s,
     fst (parseDelay (post (Some (delayObject "5" ++ tail))) s) = (5, None))
  /\ fst (parseDelay (post (Some (delayObject "5" ++ "garbage"))) newWorld)
     = (5, None)
  /\ (forall s, fst (parseDelay (post (Some "null")) s) = (0, None)).
Proof.
  split; [|split].
  - intros tail s. rewrite parseDelay_eq. reflexivity.
  - reflexivity.
  - intros s. rewrite parseDelay_eq. reflexivity.
Qed.

(** ** The response envelope *)

Lemma jsonReply_envelope (code : Z) (message : string) :
  isMessageEnvelope (written (jsonReply code message)).
Proof.
  exists (json.stringBody message). apply encode_facts.Encode_message_reads.
Qed.

(** C4, as stated, fails: the reply to a request that is not a POST is
    not a JSON object. *)
Lemma envelope_counterexample :
  ~ (forall k h r, isMessageEnvelope (written (w (serve k h r)))).
Proof.
  intros H.
  destruct (H Shutdown (windowsHost true) (mkRequest "GET" None)) as [raw E].
  vm_compute in E. discriminate E.
Qed.

(** C4, amended.  The reply to a request that is not a POST has status 405
    and the plain text "method not allowed" and a newline as its body.
    Every reply to a POST has a body that is a JSON object with the single
    member [message], a string; its status is 501 off Windows, 400 when
    the delay parser fails, 500 when the command fails and 200 when the
    command succeeds. *)
Theorem response_envelope (k : PowerActionKind) (h : Host) (r : Request) :
  (Method r <> MethodPost ->
     status (w (serve k h r)) = Some 405
     /\ written (w (serve k h r)) = "method not allowed" ++ json.newline
     /\ header (w (serve k h r))
        = [("Content-Type", "text/plain; charset=utf-8");
           ("X-Content-Type-Options", "nosniff")])
  /\ (Method r = MethodPost ->
        isMessageEnvelope (written (w (serve k h r)))
        /\ header (w (serve k h r)) = [("Content-Type", "application/json")]
        /\ (GOOS h <> "windows" -> status (w (serve k h r)) = Some 501)
        /\ (GOOS h = "windows" ->
            forall d,
              (forall e, fst (parseDelay r newWorld) = (d, Some e) ->
                 status (w (serve k h r)) = Some 400)
              /\ (fst (parseDelay r newWorld) = (d, None) ->
                  (forall e,
                     Run h ("shutdown" :: commandArgs (baseArgsOf k) d) = Some e ->
                     status (w (serve k h r)) = Some 500)
                  /\ (Run h ("shutdown" :: commandArgs (baseArgsOf k) d) = None ->
                      status (w (serve k h r)) = Some 200)))).
Proof.
  split.
  - intros Hm. rewrite (serve_wrong_method k h r Hm). repeat split.
  - intros Hm. destruct (string_dec (GOOS h) "windows") as [Hg|Hg].
    + destruct (fst (parseDelay r newWorld)) as [d0 [e0|]] eqn:HP.
      * rewrite (serve_bad_request k h r d0 e0 Hm Hg HP). cbn [w].
        split; [apply jsonReply_envelope|]. split; [reflexivity|].
        split; [congruence|]. intros _ d. split; [reflexivity|discriminate].
      * pose proof (serve_run k h r d0 Hm Hg HP) as S. cbv zeta in S.
        rewrite S.
        destruct (Run h ("shutdown" :: commandArgs (baseArgsOf k) d0)) eqn:R;
          cbn [w]; (split; [apply jsonReply_envelope|]);
          (split; [reflexivity|]); (split; [congruence|]);
          intros _ d; (split; [discriminate|]); intros [= <-];
          rewrite R; split; intros; try reflexivity; discriminate.
    + rewrite (serve_unsupported k h r Hm Hg). cbn [w].
      split; [apply jsonReply_envelope|]. split; [reflexivity|].
      split; [reflexivity|]. intros Hg'. contradiction.
Qed.

Lemma response_envelope_witness :
  status (w (serve Shutdown (windowsHost true) (mkRequest "GET" None)))
  = Some 405
  /\ isMessageEnvelope
       (written (w (serve Shutdown (windowsHost true)
                      (post (Some (delayObject "30"))))))
  /\ status (w (serve Shutdown (windowsHost true)
                 (post (Some (delayObject "30"))))) = Some 200.
Proof.
  split; [|split].
  - apply (proj1 (response_envelope Shutdown (windowsHost true)
                    (mkRequest "GET" None))).
    discriminate.
  - apply (proj2 (response_envelope Shutdown (windowsHost true)
                    (post (Some (delayObject "30")))) eq_refl).
  - apply (proj2 (proj2 (proj2 (proj2
             (response_envelope Shutdown (windowsHost true)
                (post (Some (delayObject "30")))) eq_refl))) eq_refl 30);
      reflexivity.
Defined.

(** ** The success message *)

(** Within the range where the delay's nanoseconds fit a [Duration], the
    success message of a positive delay is the base message followed by
    the delay in hours, minutes and seconds, and that of a zero delay is
    the base message. *)
Lemma successText_in_range (message : string) (d : Z) :
  (0 < d <= maxDelaySeconds ->
     successText message d
     = message ++ " It will run in " ++ restatement d ++ ".")
  /\ successText message 0 = message.
Proof.
  split; [|reflexivity]. intros H. unfold successText.
  replace (d >? 0) with true by (symmetry; apply Z.gtb_lt; lia).
  rewrite time_facts.Seconds_small by lia.
  rewrite time_facts.Round_whole_seconds by lia.
  now rewrite time_facts.String_whole_seconds.
Qed.

(** The same, on the reply: a POST on Windows with a valid delay in that
    range and a command that succeeds is answered with status 200 and
    that message. *)
Lemma success_reply (k : PowerActionKind) (h : Host) (r : Request) (d : Z) :
  Method r = MethodPost -> GOOS h = "windows" ->
  fst (parseDelay r newWorld) = (d, None) ->
  Run h ("shutdown" :: commandArgs (baseArgsOf k) d) = None ->
  d <= maxDelaySeconds ->
  w (serve k h r)
  = jsonReply StatusOK
      (if 0 <? d
       then successMessageOf k ++ " It will run in " ++ restatement d ++ "."
       else successMessageOf k).
Proof.
  intros Hm Hg HP HR Hd.
  pose proof (parseDelay_valid r newWorld d HP) as V.
  pose proof (serve_run k h r d Hm Hg HP) as S. cbv zeta in S.
  rewrite S, HR. cbn [w]. f_equal.
  destruct (0 <? d) eqn:P.
  - apply Z.ltb_lt in P. apply successText_in_range. lia.
  - apply Z.ltb_ge in P. assert (d = 0) by lia. subst d. reflexivity.
Qed.

(** C6.  At the delay 30 the message ends with "30s", and at 0 it is the
    base message; but at 9223372037 seconds, whose nanoseconds do not fit
    a [Duration], the message states a negative duration, not the delay
    the command was given. *)
Theorem success_message_at_overflow :
  w (serve Shutdown (windowsHost true) (post (Some (delayObject "30"))))
  = jsonReply StatusOK
      "Shutdown command staged. The machine is powering off. It will run in 30s."
  /\ w (serve Shutdown (windowsHost true) (post (Some (delayObject "0"))))
     = jsonReply StatusOK
         "Shutdown command staged. The machine is powering off."
  /\ w (serve Shutdown (windowsHost true)
          (post (Some (delayObject "9223372037"))))
     = jsonReply StatusOK
         "Shutdown command staged. The machine is powering off. It will run in -2562047h47m16.854775808s."
  /\ executed (serve Shutdown (windowsHost true)
                 (post (Some (delayObject "9223372037"))))
     = [["shutdown"; "/s"; "/t"; "9223372037"]]
  /\ restatement 9223372037 = "2562047h47m17s".
Proof. repeat split; vm_compute; reflexivity. Qed.

End server_facts.

(* ================================================================== *)
(** * The lifecycle supervisor *)

Module service_facts.
Import service lifecycle.

Lemma reports_app (a b : list Effect) :
  reports (a ++ b) = (reports a ++ reports b)%list.
Proof.
  induction a as [|x a IH]; [reflexivity|].
  destruct x; simpl; now rewrite ?IH.
Qed.

Lemma logLines_app (a b : list Effect) :
  logLines (a ++ b) = (logLines a ++ logLines b)%list.
Proof.
  induction a as [|x a IH]; [reflexivity|].
  destruct x; simpl; now rewrite ?IH.
Qed.

Lemma run_app (c : Control) (a b : list Event) :
  run c (a ++ b)
  = (fst (run (fst (run c a)) b),
     (snd (run c a) ++ snd (run (fst (run c a)) b))%list).
Proof.
  revert c. induction a as [|x a IH]; intros c.
  - cbn [List.app run fst snd]. now destruct (run c b).
  - cbn [List.app run]. destruct (step c x) as [c1 o1]. rewrite IH.
    destruct (run c1 a) as [c2 o2]. cbn [fst snd].
    now rewrite List.app_assoc.
Qed.

(** Once [Execute] has returned, nothing more happens. *)
Lemma run_returned (a : bool) (b : Z) (evs : list Event) :
  run (Returned a b) evs = (Returned a b, []).
Proof.
  induction evs as [|e evs IH]; [reflexivity|].
  cbn [run step]. now rewrite IH.
Qed.

(** After [cancel()], the only thing left to report is [Stopped]. *)
Lemma run_awaiting (status : Status) (evs : list Event) :
  (fst (run (AwaitingDone status) evs) = AwaitingDone status
   /\ reports (snd (run (AwaitingDone status) evs)) = [])
  \/ (fst (run (AwaitingDone status) evs) = Returned true 0
      /\ reports (snd (run (AwaitingDone status) evs)) = [Stopped]).
Proof.
  induction evs as [|e evs IH]; [left; split; reflexivity|].
  destruct e as [err|c].
  - right. cbn [run step]. rewrite run_returned. cbn [fst snd].
    split; [reflexivity|]. rewrite List.app_nil_r, reports_app.
    destruct err as [x|]; [destruct (negb (errors_Is x sCanceled))|];
      reflexivity.
  - cbn [run step].
    destruct (run (AwaitingDone status) evs) as [c2 o2]. exact IH.
Qed.

(** A request other than the three the loop answers leaves it as it is. *)
Lemma linear_stay (c : Cmd) (evs : list Event) :
  step (Selecting runningStatus) (Change c) = (Selecting runningStatus, []) ->
  linear (run (Selecting runningStatus) evs) ->
  linear (run (Selecting runningStatus) (Change c :: evs)).
Proof.
  intros E IH. cbn [run]. rewrite E.
  destruct (run (Selecting runningStatus) evs) as [c2 o2]. exact IH.
Qed.

(** A stop or shutdown request leaves the loop through [StopPending]. *)
Lemma linear_leave (c : Cmd) (evs : list Event) :
  step (Selecting runningStatus) (Change c)
  = (AwaitingDone stopPendingStatus, [Report stopPendingStatus; Cancel]) ->
  linear (run (Selecting runningStatus) (Change c :: evs)).
Proof.
  intros E. unfold linear. cbn [run]. rewrite E.
  destruct (run_awaiting stopPendingStatus evs) as [[Hc Hr]|[Hc Hr]];
    destruct (run (AwaitingDone stopPendingStatus) evs) as [c2 o2];
    cbn [fst snd] in *; subst c2.
  - exists 0%nat, [StopPending].
    cbn [List.app reports State_ stopPendingStatus].
    rewrite Hr. split; [reflexivity|]. right; left. split; reflexivity.
  - exists 0%nat, [StopPending; Stopped].
    cbn [List.app reports State_ stopPendingStatus].
    rewrite Hr. split; [reflexivity|]. right; right; left. split; reflexivity.
Qed.

Lemma run_selecting (evs : list Event) :
  linear (run (Selecting runningStatus) evs).
Proof.
  induction evs as [|e evs IH].
  - exists 0%nat, []. split; [reflexivity|]. left. split; reflexivity.
  - destruct e as [err|c].
    + exists 0%nat, [Stopped]. cbn [run step]. rewrite run_returned.
      cbn [fst snd]. rewrite List.app_nil_r, reports_app.
      split; [destruct err; reflexivity|]. right; right; right.
      split; reflexivity.
    + destruct c;
        try (apply linear_stay; [reflexivity | exact IH]);
        try (apply linear_leave; reflexivity).
      destruct IH as (n & tail & Hr & Hc).
      exists (S n), tail. cbn [run step].
      destruct (run (Selecting runningStatus) evs) as [c2 o2].
      cbn [fst snd List.app reports] in *. rewrite Hr. split; [reflexivity|].
      exact Hc.
Qed.

(** C8.  Under the service manager, [Execute] reports [StartPending], then
    [Running]; then [Running] again once per [Interrogate]; then nothing
    more while it is in its loop, or [StopPending] while it waits for the
    server after a stop or shutdown request, or [StopPending] and
    [Stopped] when it has returned after such a request, or [Stopped]
    alone when it has returned because the server ended.  No state is
    reported after a later one, and once [Execute] has returned nothing
    is reported.  A stop or shutdown request received in the loop is
    answered with [StopPending], and the server's result then with
    [Stopped].  An [Interrogate] is answered with the current status and
    nothing else, and leaves the status as it is. *)
Theorem lifecycle_is_linear (evs : list Event) :
  (exists n tail,
     reports (snd (Execute evs))
     = ([StartPending; Running] ++ List.repeat Running n ++ tail)%list
     /\ ((fst (Execute evs) = Selecting runningStatus /\ tail = [])
         \/ (fst (Execute evs) = AwaitingDone stopPendingStatus
             /\ tail = [StopPending])
         \/ (fst (Execute evs) = Returned true 0
             /\ tail = [StopPending; Stopped])
         \/ (fst (Execute evs) = Returned false 0 /\ tail = [Stopped])))
  /\ (forall a b more,
        fst (Execute evs) = Returned a b ->
        Execute (evs ++ more) = Execute evs)
  /\ (forall c err,
        c = Stop \/ c = Shutdown ->
        fst (Execute evs) = Selecting runningStatus ->
        reports (snd (Execute (evs ++ [Change c; Done err])))
        = (reports (snd (Execute evs)) ++ [StopPending; Stopped])%list
        /\ fst (Execute (evs ++ [Change c; Done err])) = Returned true 0)
  /\ (forall status,
        step (Selecting status) (Change Interrogate)
        = (Selecting status, [Report status])).
Proof.
  split; [|split; [|split]].
  - destruct (run_selecting evs) as (n & tail & Hr & Hc).
    exists n, tail. unfold Execute.
    destruct (run (Selecting runningStatus) evs) as [c o].
    cbn [fst snd] in *. rewrite reports_app, Hr. split; [reflexivity|].
    exact Hc.
  - intros a b more. unfold Execute. rewrite run_app.
    destruct (run (Selecting runningStatus) evs) as [c o]. cbn [fst snd].
    intros ->. rewrite run_returned. cbn [fst snd].
    now rewrite List.app_nil_r.
  - intros c err Hc. unfold Execute. rewrite run_app.
    destruct (run (Selecting runningStatus) evs) as [c0 o]. cbn [fst snd].
    intros ->. rewrite !reports_app.
    destruct Hc as [-> | ->]; (split; [|reflexivity]);
      cbn [run step fst snd]; rewrite !reports_app;
      (destruct err as [x|]; [destruct (negb (errors_Is x sCanceled))|]);
      reflexivity.
  - reflexivity.
Qed.

Lemma lifecycle_is_linear_witness :
  reports (snd (Execute [Change Interrogate; Change Stop; Done None]))
  = [StartPending; Running; Running; StopPending; Stopped]
  /\ Execute ([Done None] ++ [Change Interrogate]) = Execute [Done None].
Proof.
  split.
  - apply (proj1 (proj2 (proj2 (lifecycle_is_linear [Change Interrogate])))
             Stop None); [left|]; reflexivity.
  - apply (proj1 (proj2 (lifecycle_is_linear [Done None])) false 0).
    reflexivity.
Defined.

(** ** A listener that cannot bind *)

Lemma run_until_done (cmds : list Cmd) (err : option error) (c : Control) :
  (exists status, c = Selecting status \/ c = AwaitingDone status) ->
  exists a out,
    run c (List.map Change cmds ++ [Done err]) = (Returned a 0, out)
    /\ List.last (reports out) Running = Stopped
    /\ forall x, err = Some x -> errors_Is x sCanceled = false ->
         (logLines out = ["service server exited: " ++ Error x]
          \/ logLines out = ["shutdown error: " ++ Error x]).
Proof.
  revert c. induction cmds as [|cmd cmds IH]; intros c [status [->| ->]].
  - exists false. eexists. cbn [List.map List.app run step].
    split; [reflexivity|]. rewrite List.app_nil_r, reports_app.
    split; [destruct err; reflexivity|].
    intros x -> _. left. reflexivity.
  - exists true. eexists. cbn [List.map List.app run step].
    split; [reflexivity|]. rewrite List.app_nil_r, reports_app.
    split.
    + destruct err as [x|]; [destruct (negb (errors_Is x sCanceled))|];
        reflexivity.
    + intros x -> Hx. rewrite Hx. right. reflexivity.
  - cbn [List.map List.app run].
    destruct (step (Selecting status) (Change cmd)) as [c1 o1] eqn:S.
    assert (H1 : (exists st, c1 = Selecting st \/ c1 = AwaitingDone st)
                 /\ logLines o1 = []
                 /\ forall d, List.last (reports (o1 ++ d)) Running
                              = List.last (reports d) Running
                              \/ reports d = []).
    { destruct cmd; cbn [step] in S; injection S as <- <-;
        (split; [eexists; (left; reflexivity) || (right; reflexivity)|]);
        (split; [reflexivity|]); intros d; cbn [List.app reports];
        try (left; reflexivity);
        destruct (reports d) eqn:R; try (right; reflexivity);
        left; reflexivity. }
    destruct H1 as (Hc & Hl & Hlast).
    destruct (IH c1 Hc) as (a & out & Hrun & Hstop & Hlog).
    rewrite Hrun. exists a, (o1 ++ out)%list. split; [reflexivity|].
    split.
    + destruct (Hlast out) as [E|E]; [now rewrite E|].
      rewrite E in Hstop. discriminate Hstop.
    + intros x Hx Hn. rewrite logLines_app, Hl. now apply Hlog.
  - cbn [List.map List.app run step].
    destruct (IH (AwaitingDone status)) as (a & out & Hrun & Hstop & Hlog);
      [eexists; right; reflexivity|].
    rewrite Hrun. exists a, out. auto.
Qed.

(** C9, as stated, fails: under the service manager the process ends
    with exit status 0 when the listener cannot bind. *)
Lemma bind_failure_counterexample :
  ~ (forall e cause,
       serving e = BindFailed cause -> isServiceErr e = None ->
       dispatcherErr e = None ->
       exitStatus (main e) <> 0 /\ served (main e) = []).
Proof.
  intros H.
  destruct (H (supervised "listen tcp :8181: bind: address already in use" [])
              "listen tcp :8181: bind: address already in use"
              eq_refl eq_refl eq_refl) as [Hx _].
  apply Hx. reflexivity.
Qed.

(** C9, amended.  When the listener cannot bind, no request is served.
    Started by hand, the process logs the failure and exits with status
    1.  Under the service manager, [Execute] logs the failure, reports
    [Stopped] last and returns exit code 0 to the service manager, and the
    process exits with status 0. *)
Theorem bind_failure (e : Surroundings) (cause : string) :
  serving e = BindFailed cause -> isServiceErr e = None ->
  dispatcherErr e = None ->
  served (main e) = []
  /\ (isService e = false ->
      exitStatus (main e) = 1
      /\ List.last (output (main e)) EmptyString = "server failed: " ++ cause)
  /\ (isService e = true ->
      exitStatus (main e) = 0
      /\ (exists a, serviceResult (main e) = Some (a, 0))
      /\ List.last (reports (effects (main e))) Running = Stopped
      /\ (List.In ("service server exited: " ++ cause) (output (main e))
          \/ List.In ("shutdown error: " ++ cause) (output (main e)))).
Proof.
  intros Hs He Hd. unfold main, maybeRunService, svc_Run.
  rewrite He, Hd, Hs. destruct (isService e); cbn [negb].
  - cbn [runHTTPServer ListenAndServe errors_Is sameSentinel orb negb fst snd].
    destruct (run_until_done (received e) (Some (os_Error cause))
                (Selecting runningStatus)) as (a & out & Hrun & Hstop & Hlog);
      [eexists; left; reflexivity|].
    unfold Execute. rewrite Hrun. cbn [served exitStatus serviceResult effects
      output servedRequests].
    split; [reflexivity|]. split; [discriminate|]. intros _.
    split; [reflexivity|]. split; [eexists; reflexivity|]. split.
    + rewrite reports_app. cbn [prologue reports State_ List.app].
      destruct (reports out) as [|s l] eqn:R; [discriminate Hstop|].
      exact Hstop.
    + rewrite logLines_app. cbn [prologue logLines List.app].
      destruct (Hlog (os_Error cause) eq_refl eq_refl) as [L|L]; rewrite L.
      * left. right. left. reflexivity.
      * right. right. left. reflexivity.
  - cbn. split; [reflexivity|]. split; [|discriminate]. intros _.
    split; reflexivity.
Qed.

Lemma bind_failure_witness :
  exitStatus (main (standalone "bind: address already in use")) = 1
  /\ exitStatus (main (supervised "bind: address already in use" [Interrogate]))
     = 0.
Proof.
  split.
  - apply (proj1 (proj2 (bind_failure
                           (standalone "bind: address already in use")
                           "bind: address already in use"
                           eq_refl eq_refl eq_refl))).
    reflexivity.
  - apply (proj2 (proj2 (bind_failure
                           (supervised "bind: address already in use"
                              [Interrogate])
                           "bind: address already in use"
                           eq_refl eq_refl eq_refl))).
    reflexivity.
Defined.

End service_facts.

(* ================================================================== *)
(** * Integer literals in the request body *)

Module literal_facts.
Import json literals invariants strconv_facts json_facts encode_facts.

(** ** The decimal text of an integer *)

Lemma string_of_uint_digits (u : Decimal.uint) :
  allDigits (NilEmpty.string_of_uint u) = true.
Proof. induction u; simpl; auto. Qed.

Lemma nzhead_not_D0 (u l : Decimal.uint) : nzhead u <> D0 l.
Proof. induction u; simpl; auto; discriminate. Qed.

(** The numeral of a positive number has no leading zero. *)
Lemma to_uint_not_D0 (p : positive) (l : Decimal.uint) :
  Pos.to_uint p <> D0 l.
Proof.
  intros E.
  assert (N : Pos.to_uint p = unorm (Pos.to_uint p)).
  { rewrite <- DecimalPos.Unsigned.to_of, DecimalPos.Unsigned.of_to.
    reflexivity. }
  rewrite E in N. unfold unorm in N. cbn [nzhead] in N.
  destruct (nzhead l) eqn:Z; try discriminate N.
  - injection N as ->. now apply (DecimalPos.Unsigned.to_uint_nonzero p).
  - now apply (nzhead_not_D0 l u).
Qed.

Lemma unsignedLiteral_pos (p : positive) :
  unsignedLiteral (NilEmpty.string_of_uint (Pos.to_uint p)) = true.
Proof.
  pose proof (to_uint_not_D0 p) as N.
  pose proof (DecimalPos.Unsigned.to_uint_nonnil p) as M.
  pose proof (string_of_uint_digits (Pos.to_uint p)) as D.
  destruct (Pos.to_uint p) as [|l|l|l|l|l|l|l|l|l|l];
    [congruence | exfalso; apply (N l); reflexivity | ..]; exact D.
Qed.

Lemma integerLiteral_Itoa (d : Z) : integerLiteral (strconv.Itoa d) = true.
Proof.
  destruct d as [|p|p]; [reflexivity | |].
  - rewrite Itoa_pos. pose proof (unsignedLiteral_pos p) as U.
    unfold integerLiteral.
    destruct (NilEmpty.string_of_uint (Pos.to_uint p)) as [|c s] eqn:E;
      [discriminate U|].
    destruct (Ascii.eqb_spec c "-"); [|exact U].
    subst c. simpl in U. discriminate U.
  - unfold strconv.Itoa. cbn [Z.to_int NilZero.string_of_int].
    unfold integerLiteral. change (Ascii.eqb "-" "-") with true. cbv iota.
    pose proof (unsignedLiteral_pos p) as U.
    unfold NilZero.string_of_uint.
    destruct (Pos.to_uint p) eqn:E; try exact U.
    exfalso. now apply (DecimalPos.Unsigned.to_uint_nonnil p).
Qed.

(** [strconv.ParseInt] reads back the text of every [int64], and of no
    other integer. *)
Lemma ParseInt_Itoa_any (d : Z) :
  strconv.ParseInt (strconv.Itoa d)
  = if strconv.inInt64 d then Some d else None.
Proof.
  unfold strconv.inInt64, strconv.minInt64, strconv.maxInt64.
  destruct d as [|p|p]; [reflexivity | |].
  - assert (V := digitsValue_Itoa (Z.pos p) ltac:(lia)).
    assert (NE := Itoa_nonempty (Z.pos p) ltac:(lia)).
    destruct (Z.pos p <=? 2 ^ 63 - 1) eqn:R.
    + replace (- 2 ^ 63 <=? Z.pos p) with true
        by (symmetry; apply Z.leb_le; lia).
      apply Z.leb_le in R. apply ParseInt_digits; auto. lia.
    + rewrite andb_false_r. apply Z.leb_gt in R.
      destruct (strconv.Itoa (Z.pos p)) as [|c s] eqn:E; [congruence|].
      unfold strconv.ParseInt, strconv.ParseUint.
      assert (Hd : isDigit c = true).
      { simpl in V. destruct (isDigit c); [reflexivity | discriminate]. }
      destruct (isDigit_not_sign c Hd) as [-> ->]. simpl orb. cbv iota.
      rewrite V. destruct (Z.pos p <? 2 ^ 64); [|reflexivity].
      replace (2 ^ 63 <=? Z.pos p) with true by (symmetry; apply Z.leb_le; lia).
      reflexivity.
  - assert (V := digitsValue_Itoa (Z.pos p) ltac:(lia)).
    assert (NE := Itoa_nonempty (Z.pos p) ltac:(lia)).
    assert (E : strconv.Itoa (Z.neg p) = String "-" (strconv.Itoa (Z.pos p))).
    { reflexivity. }
    rewrite E. unfold strconv.ParseInt, strconv.ParseUint.
    change (Ascii.eqb "-" "-") with true. rewrite orb_true_r. cbv iota.
    destruct (strconv.Itoa (Z.pos p)) as [|c s] eqn:E'; [congruence|].
    rewrite V. cbn [negb andb].
    replace (Z.neg p <=? 2 ^ 63 - 1) with true
      by (symmetry; apply Z.leb_le; lia).
    rewrite andb_true_r.
    destruct (- 2 ^ 63 <=? Z.neg p) eqn:R.
    + apply Z.leb_le in R.
      replace (Z.pos p <? 2 ^ 64) with true by (symmetry; apply Z.ltb_lt; lia).
      replace (2 ^ 63 <? Z.pos p) with false by (symmetry; apply Z.ltb_ge; lia).
      reflexivity.
    + apply Z.leb_gt in R.
      destruct (Z.pos p <? 2 ^ 64); [|reflexivity].
      replace (2 ^ 63 <? Z.pos p) with true by (symmetry; apply Z.ltb_lt; lia).
      reflexivity.
Qed.

End literal_facts.

Module body_facts.
Import json literals invariants strconv_facts json_facts encode_facts.
Import literal_facts server spec server_facts.

Lemma digit_not_space (c : ascii) : isDigit c = true -> isSpace c = false.
Proof.
  unfold isDigit, isSpace. intros H. apply andb_prop in H.
  destruct H as [H _]. apply N.leb_le in H.
  repeat match goal with
         | |- context [(byteN c =? ?n)%N] =>
             replace (byteN c =? n)%N with false
               by (symmetry; apply N.eqb_neq; lia)
         end.
  reflexivity.
Qed.

Ltac not_char c x :=
  let E := fresh in
  destruct (Ascii.eqb_spec c x) as [E|E];
  [subst c; discriminate | clear E].

(** A digit other than [0] starts a number. *)
Lemma begin_number (c : ascii) (st : list parseState) :
  isDigit c = true -> Ascii.eqb c "0" = false ->
  stepByte (mkScanner stateBeginValue st) c
  = scanContinue (mkScanner (state1 (str1 c)) st).
Proof.
  intros D Z. unfold stepByte. cbn [step stack]. unfold stepBeginValue.
  rewrite (digit_not_space c D), Z, D.
  not_char c "{"%char. not_char c "["%char. not_char c dq.
  not_char c "-"%char. not_char c "t"%char. not_char c "f"%char.
  not_char c "n"%char. reflexivity.
Qed.

Lemma after_minus (c : ascii) (acc : string) (st : list parseState) :
  isDigit c = true -> Ascii.eqb c "0" = false ->
  stepByte (mkScanner (stateNeg acc) st) c
  = scanContinue (mkScanner (state1 (snoc acc c)) st).
Proof.
  intros D Z. unfold stepByte. cbn [step stack]. now rewrite Z, D.
Qed.

(** Digits keep the scanner inside the number. *)
Lemma scan_digits (ds : string) :
  allDigits ds = true ->
  forall buf acc st rest,
    readLoop buf (mkScanner (state1 acc) st) (ds ++ rest)
    = readLoop buf (mkScanner (state1 (acc ++ ds)) st) rest.
Proof.
  induction ds as [|c ds IH]; intros H buf acc st rest.
  - now rewrite append_nil_r.
  - unfold allDigits in H. cbn [forallb_string] in H. apply andb_prop in H.
    destruct H as [D H]. rewrite append_cons, readLoop_cons.
    unfold stepByte. cbn [step stack]. rewrite D.
    rewrite (IH H). unfold snoc, str1. now rewrite append_assoc.
Qed.

(** What stands before a number literal in the body [{"delaySeconds":n}]. *)
Lemma read_prefix (buf rest : string) :
  readLoop buf reset ("{" ++ quoted "delaySeconds" ++ ":" ++ rest)
  = readLoop buf
      (mkScanner stateBeginValue
         [parseObjectValue [] (Some "delaySeconds")]) rest.
Proof. reflexivity. Qed.

(** The body [{"delaySeconds":n}], for an integer literal [n], reads as
    the object with that one member, whatever follows it. *)
Lemma read_delayObject (lit tail : string) :
  integerLiteral lit = true ->
  readValue (delayObject lit ++ tail)
  = readOk (Object [("delaySeconds", Number lit)]) tail.
Proof.
  intros L. unfold readValue.
  assert (E : delayObject lit ++ tail
              = "{" ++ quoted "delaySeconds" ++ ":" ++ (lit ++ String "}" tail)).
  { unfold delayObject, quoted, str1.
    repeat first [ rewrite append_assoc | rewrite append_cons
                 | rewrite append_nil_l ].
    reflexivity. }
  rewrite E at 2. rewrite read_prefix.
  set (st := [parseObjectValue [] (Some "delaySeconds")]).
  assert (U : forall u acc0 s0,
             unsignedLiteral u = true ->
             (forall c, isDigit c = true -> Ascii.eqb c "0" = false ->
                stepByte s0 c
                = scanContinue (mkScanner (state1 (acc0 ++ str1 c)) st)) ->
             stepByte s0 "0"
             = scanContinue (mkScanner (state0 (acc0 ++ "0")) st) ->
             readLoop (delayObject lit ++ tail) s0 (u ++ String "}" tail)
             = readOk (Object [("delaySeconds", Number (acc0 ++ u))]) tail).
  { intros u acc0 s0 Hu Hd H0. destruct u as [|c ds]; [discriminate Hu|].
    cbn [unsignedLiteral] in Hu. destruct (Ascii.eqb_spec c "0") as [->|Hc].
    - destruct ds; [|discriminate Hu].
      rewrite append_cons, readLoop_cons, H0. reflexivity.
    - unfold allDigits in Hu. cbn [forallb_string] in Hu.
      apply andb_prop in Hu. destruct Hu as [D Hds].
      rewrite append_cons, readLoop_cons, (Hd c D).
      + rewrite (scan_digits ds Hds). rewrite readLoop_cons.
        unfold str1. rewrite append_assoc, append_cons, append_nil_l.
        reflexivity.
      + now apply Ascii.eqb_neq. }
  destruct lit as [|c s]; [discriminate L|].
  cbn [integerLiteral] in L. destruct (Ascii.eqb_spec c "-") as [->|Hm].
  - rewrite append_cons, readLoop_cons.
    change (stepByte (mkScanner stateBeginValue st) "-")
      with (scanContinue (mkScanner (stateNeg "-") st)).
    apply (U s "-" _ L).
    + intros c D Z. now rewrite after_minus.
    + reflexivity.
  - apply (U (String c s) EmptyString _ L).
    + intros c0 D Z. now rewrite begin_number.
    + reflexivity.
Qed.

(** Decoding such a body stores the number when it is an [int], and
    reports a type mismatch otherwise. *)
Lemma Decode_delayObject (lit tail : string) (p : payload) :
  integerLiteral lit = true ->
  Decode (delayObject lit ++ tail) p
  = match strconv.ParseInt lit with
    | Some n => (mkPayload n, None)
    | None => (p, Some (delayMismatch lit))
    end.
Proof.
  intros L. unfold Decode. rewrite (read_delayObject lit tail L).
  cbn [storeStruct storeMembers].
  change (keyMatches "delaySeconds" fieldName) with true. cbv iota.
  cbn [storeInt]. destruct (strconv.ParseInt lit); reflexivity.
Qed.

(** X1.  The delay parser on the body [{"delaySeconds":n}], where [n] is
    the decimal text of any integer [d] and anything may follow the
    object: the delay [d] when [d] is a non-negative [int]; the
    [InvalidDelay] error when [d] is a negative [int]; and the
    [MalformedRequest] error around the decoder's type mismatch when [d]
    does not fit an [int]. *)
Theorem parseDelay_integer (d : Z) (tail : string) (s : World) :
  fst (parseDelay (post (Some (delayObject (strconv.Itoa d) ++ tail))) s)
  = if strconv.inInt64 d
    then if d <? 0 then (0, Some InvalidDelay) else (d, None)
    else (0, Some (MalformedRequest (delayMismatch (strconv.Itoa d)))).
Proof.
  rewrite parseDelay_eq. cbn [fst]. unfold parseDelay, post. cbn [Body].
  rewrite (Decode_delayObject _ tail _ (integerLiteral_Itoa d)).
  rewrite ParseInt_Itoa_any. destruct (strconv.inInt64 d); [|reflexivity].
  cbn [DelaySeconds]. destruct (d <? 0); reflexivity.
Qed.

(** X2.  On Windows, a POST whose body is [{"delaySeconds":n}] with [n]
    the decimal text of a non-negative [int] runs one command, [shutdown]
    with the base flags of the endpoint, [/t] and that same text [n]; the
    reply is 200 when the command succeeds and 500 when it fails. *)
Theorem delay_reaches_command (k : PowerActionKind) (h : Host) (d : Z)
    (tail : string) :
  GOOS h = "windows" -> 0 <= d <= strconv.maxInt64 ->
  let r := post (Some (delayObject (strconv.Itoa d) ++ tail)) in
  let command := ("shutdown" :: baseArgsOf k ++ ["/t"; strconv.Itoa d])%list in
  executed (serve k h r) = [command]
  /\ status (w (serve k h r))
     = Some (match Run h command with None => 200 | Some _ => 500 end).
Proof.
  intros Hg Hd r command.
  assert (HP : fst (parseDelay r newWorld) = (d, None)).
  { unfold r. rewrite parseDelay_integer.
    replace (strconv.inInt64 d) with true.
    - replace (d <? 0) with false by (symmetry; apply Z.ltb_ge; lia).
      reflexivity.
    - symmetry. unfold strconv.inInt64, strconv.minInt64.
      apply andb_true_intro. split; apply Z.leb_le; lia. }
  pose proof (serve_run k h r d eq_refl Hg HP) as S. cbv zeta in S.
  rewrite S. fold command.
  change ("shutdown" :: commandArgs (baseArgsOf k) d) with command.
  destruct (Run h command); split; reflexivity.
Qed.

Lemma delay_reaches_command_witness :
  executed (serve Restart (windowsHost true)
              (post (Some (delayObject (strconv.Itoa 300) ++ " "))))
  = [["shutdown"; "/r"; "/t"; "300"]]
  /\ status (w (serve Restart (windowsHost true)
                  (post (Some (delayObject (strconv.Itoa 300) ++ " ")))))
     = Some 200.
Proof.
  apply (delay_reaches_command Restart (windowsHost true) 300 " ").
  - reflexivity.
  - unfold strconv.maxInt64. lia.
Defined.

End body_facts.

(* ================================================================== *)
(** * What a request can and cannot do *)

Module handler_facts.
Import literals invariants strconv_facts json_facts literal_facts.
Import server spec server_facts.

Lemma Itoa_allDigits (d : Z) : 0 <= d -> allDigits (strconv.Itoa d) = true.
Proof.
  intros H. destruct d as [|p|p]; [reflexivity | | lia].
  rewrite Itoa_pos. apply string_of_uint_digits.
Qed.

(** The four ways a request is served, told apart. *)
Lemma serve_cases (k : PowerActionKind) (h : Host) (r : Request) :
  (Method r <> MethodPost)
  \/ (Method r = MethodPost /\ GOOS h <> "windows")
  \/ (Method r = MethodPost /\ GOOS h = "windows"
      /\ exists d e, fst (parseDelay r newWorld) = (d, Some e))
  \/ (Method r = MethodPost /\ GOOS h = "windows"
      /\ exists d, fst (parseDelay r newWorld) = (d, None)).
Proof.
  destruct (string_dec (Method r) MethodPost) as [Hm|Hm]; [|now left].
  destruct (string_dec (GOOS h) "windows") as [Hg|Hg]; [|right; now left].
  destruct (fst (parseDelay r newWorld)) as [d [e|]] eqn:HP.
  - right; right; left. repeat split; eauto.
  - right; right; right. repeat split; eauto.
Qed.

(** X3.  A request runs at most one command, and a command it runs is
    [shutdown] with the base flags of the endpoint, [/t], and the decimal
    digits of the delay the parser returned: nothing of the request
    reaches the command line but that number. *)
Theorem only_shutdown_runs (k : PowerActionKind) (h : Host) (r : Request) :
  (List.length (executed (serve k h r)) <= 1)%nat
  /\ forall cmd,
       List.In cmd (executed (serve k h r)) ->
       exists d,
         0 <= d <= strconv.maxInt64
         /\ fst (parseDelay r newWorld) = (d, None)
         /\ cmd = ("shutdown" :: baseArgsOf k ++ ["/t"; strconv.Itoa d])%list
         /\ allDigits (strconv.Itoa d) = true.
Proof.
  destruct (serve_cases k h r)
    as [Hm | [[Hm Hg] | [(Hm & Hg & d & e & HP) | (Hm & Hg & d & HP)]]].
  - rewrite (serve_wrong_method k h r Hm). cbn. split; [lia | tauto].
  - rewrite (serve_unsupported k h r Hm Hg). cbn. split; [lia | tauto].
  - rewrite (serve_bad_request k h r d e Hm Hg HP). cbn. split; [lia | tauto].
  - pose proof (serve_run k h r d Hm Hg HP) as S. cbv zeta in S. rewrite S.
    pose proof (parseDelay_valid r newWorld d HP) as V.
    assert (C : forall cmd,
               List.In cmd ["shutdown" :: commandArgs (baseArgsOf k) d] ->
               exists d0,
                 0 <= d0 <= strconv.maxInt64
                 /\ (d, @None error) = (d0, None)
                 /\ cmd = ("shutdown" :: baseArgsOf k
                             ++ ["/t"; strconv.Itoa d0])%list
                 /\ allDigits (strconv.Itoa d0) = true).
    { intros cmd [<-|[]]. exists d. repeat split; try lia.
      apply Itoa_allDigits; lia. }
    rewrite HP.
    destruct (Run h _); cbn [executed List.length]; split; auto.
Qed.

Lemma only_shutdown_runs_witness :
  exists d,
    0 <= d <= strconv.maxInt64
    /\ ["shutdown"; "/s"; "/t"; "30"]
       = ("shutdown" :: baseArgsOf Shutdown ++ ["/t"; strconv.Itoa d])%list.
Proof.
  destruct (proj2 (only_shutdown_runs Shutdown (windowsHost true)
                     (post (Some (delayObject "30"))))
              ["shutdown"; "/s"; "/t"; "30"]) as (d & Hd & _ & Hc & _).
  - left. reflexivity.
  - exists d. split; assumption.
Defined.

(** X4.  The status tells what happened to the command: 200 exactly when
    one command was run and succeeded, 500 exactly when one was run and
    failed, and 400, 405 or 501 exactly when none was run.  Nothing is
    logged unless the status is 500. *)
Theorem status_tells_execution (k : PowerActionKind) (h : Host) (r : Request) :
  (status (w (serve k h r)) = Some 200
   <-> exists cmd, executed (serve k h r) = [cmd] /\ Run h cmd = None)
  /\ (status (w (serve k h r)) = Some 500
      <-> exists cmd e, executed (serve k h r) = [cmd] /\ Run h cmd = Some e)
  /\ (executed (serve k h r) = []
      <-> status (w (serve k h r)) = Some 400
          \/ status (w (serve k h r)) = Some 405
          \/ status (w (serve k h r)) = Some 501)
  /\ (logged (serve k h r) = [] \/ status (w (serve k h r)) = Some 500).
Proof.
  destruct (serve_cases k h r)
    as [Hm | [[Hm Hg] | [(Hm & Hg & d & e & HP) | (Hm & Hg & d & HP)]]].
  - rewrite (serve_wrong_method k h r Hm). cbn.
    repeat split; try discriminate; try tauto;
      try (intros (c & H & _); discriminate H);
      try (intros (c & e & H & _); discriminate H).
  - rewrite (serve_unsupported k h r Hm Hg). cbn.
    repeat split; try discriminate; try tauto;
      try (intros (c & H & _); discriminate H);
      try (intros (c & e & H & _); discriminate H).
  - rewrite (serve_bad_request k h r d e Hm Hg HP). cbn.
    repeat split; try discriminate; try tauto;
      try (intros (c & H & _); discriminate H);
      try (intros (c & e0 & H & _); discriminate H).
  - pose proof (serve_run k h r d Hm Hg HP) as S. cbv zeta in S. rewrite S.
    clear S. generalize ("shutdown" :: commandArgs (baseArgsOf k) d).
    intros cmd0. destruct (Run h cmd0) as [e|] eqn:R;
      cbn; repeat split; try discriminate; try tauto;
      try (intros _; eexists; split; [reflexivity | exact R]);
      try (intros _; do 2 eexists; split; [reflexivity | exact R]);
      try (intros (c & H & H'); injection H as <-; congruence);
      try (intros (c & e0 & H & H'); injection H as <-; congruence);
      try (intros [H|[H|H]]; discriminate H).
Qed.

Lemma status_tells_execution_witness :
  exists cmd,
    executed (serve Shutdown (windowsHost true) (post None)) = [cmd]
    /\ Run (windowsHost true) cmd = None.
Proof.
  apply (proj1 (proj1 (status_tells_execution Shutdown (windowsHost true)
                         (post None)))).
  reflexivity.
Defined.

(** X5.  The method is checked first: a request that is not a POST gets
    the same 405 reply on every host and with every body; its body is
    left open and no command is run. *)
Theorem wrong_method_gate (k : PowerActionKind) (h h' : Host)
    (r r' : Request) :
  Method r <> MethodPost -> Method r' = Method r ->
  serve k h r = serve k h' r'
  /\ status (w (serve k h r)) = Some 405
  /\ bodyClosed (serve k h r) = false
  /\ executed (serve k h r) = []
  /\ logged (serve k h r) = [].
Proof.
  intros Hm E. assert (Hm' : Method r' <> MethodPost) by congruence.
  rewrite (serve_wrong_method k h r Hm), (serve_wrong_method k h' r' Hm').
  repeat split.
Qed.

Lemma wrong_method_gate_witness :
  serve Shutdown (windowsHost true) (mkRequest "GET" None)
  = serve Shutdown (mkHost "linux" (fun _ => None))
      (mkRequest "GET" (Some (delayObject "30")))
  /\ status (w (serve Shutdown (windowsHost true) (mkRequest "GET" None)))
     = Some 405.
Proof.
  destruct (wrong_method_gate Shutdown (windowsHost true)
              (mkHost "linux" (fun _ => None)) (mkRequest "GET" None)
              (mkRequest "GET" (Some (delayObject "30"))))
    as (H1 & H2 & _); [discriminate | reflexivity |].
  split; assumption.
Defined.

(** ** Every outcome of the delay parser *)



(** ** The message of a scheduled action *)

(** X7.  On Windows, when the delay is valid, at most 9223372036 seconds
    (the most whose nanoseconds fit a [Duration]) and the command
    succeeds, the reply is 200 and its message is the base message of the
    endpoint, followed for a positive delay by " It will run in ", the
    delay in hours, minutes and seconds, and a full stop. *)
Theorem scheduled_message (k : PowerActionKind) (h : Host) (r : Request)
    (d : Z) :
  Method r = MethodPost -> GOOS h = "windows" ->
  fst (parseDelay r newWorld) = (d, None) ->
  Run h ("shutdown" :: commandArgs (baseArgsOf k) d) = None ->
  d <= maxDelaySeconds ->
  status (w (serve k h r)) = Some 200
  /\ written (w (serve k h r))
     = json.Encode
         [("message",
           if 0 <? d
           then successMessageOf k ++ " It will run in "
                ++ restatement d ++ "."
           else successMessageOf k)].
Proof.
  intros Hm Hg HP HR Hd.
  rewrite (success_reply k h r d Hm Hg HP HR Hd). split; reflexivity.
Qed.

Lemma scheduled_message_witness :
  written (w (serve Restart (windowsHost true)
                (post (Some (delayObject "7200")))))
  = json.Encode
      [("message",
        "Restart command staged. The machine is restarting. It will run in 2h0m0s.")].
Proof.
  apply (scheduled_message Restart (windowsHost true)
           (post (Some (delayObject "7200"))) 7200);
    try reflexivity.
  unfold maxDelaySeconds. lia.
Defined.

End handler_facts.

(* ================================================================== *)
(** * The previous revision *)

Module revision_facts.
Import server spec server_facts handler_facts.

(** The previous handlers on a POST on Windows. *)
Lemma previous_serve_run (k : PowerActionKind) (h : Host) (r : Request) :
  Method r = MethodPost -> GOOS h = "windows" ->
  exists message,
    previous.serve k h r
    = match Run h ("shutdown" :: commandArgs (baseArgsOf k) 0) with
      | Some e =>
          mkWorld
            (jsonReply StatusInternalServerError
               "Failed to execute power command.")
            false
            ["power command failed ("
             ++ fmt_v_strings (commandArgs (baseArgsOf k) 0) ++ "): "
             ++ Error e]
            ["shutdown" :: commandArgs (baseArgsOf k) 0]
      | None =>
          mkWorld (jsonReply StatusOK message) false []
            ["shutdown" :: commandArgs (baseArgsOf k) 0]
      end.
Proof.
  intros Hm Hg.
  destruct k; eexists; unfold previous.serve; cbn [previous.handlerOf];
    unfold previous.shutdownHandler, previous.restartHandler,
      previous.restartFirmwareHandler, previous.handlePowerAction;
    rewrite Hm, Hg;
    change (String.eqb MethodPost MethodPost) with true;
    change (String.eqb "windows" "windows") with true; cbn [negb];
    unfold bind at 1, exec_Run; cbn [baseArgsOf];
    unfold commandArgs; cbn [List.app]; change (strconv.Itoa 0) with "0";
    match goal with |- context [Run h ?c] => destruct (Run h c) end;
    reflexivity.
Qed.

Lemma previous_serve_gates (k : PowerActionKind) (h : Host) (r : Request) :
  (Method r <> MethodPost ->
   previous.serve k h r
   = mkWorld
       (mkResponseWriter
          [("Content-Type", "text/plain; charset=utf-8");
           ("X-Content-Type-Options", "nosniff")]
          (Some StatusMethodNotAllowed)
          ("method not allowed" ++ json.newline))
       false [] [])
  /\ (Method r = MethodPost -> GOOS h <> "windows" ->
      previous.serve k h r
      = mkWorld
          (jsonReply StatusNotImplemented
             "Power control commands are available only on Windows hosts.")
          false [] []).
Proof.
  split.
  - intros Hm. apply String.eqb_neq in Hm.
    destruct k; unfold previous.serve; cbn [previous.handlerOf];
      unfold previous.shutdownHandler, previous.restartHandler,
        previous.restartFirmwareHandler, previous.handlePowerAction;
      rewrite Hm; reflexivity.
  - intros Hm Hg. apply String.eqb_neq in Hg.
    destruct k; unfold previous.serve; cbn [previous.handlerOf];
      unfold previous.shutdownHandler, previous.restartHandler,
        previous.restartFirmwareHandler, previous.handlePowerAction;
      rewrite Hm, Hg; reflexivity.
Qed.

(** X8.  A client of the previous revision, which sends no body (or an
    empty one), is served as before: the same command with delay [0] is
    run, the status, the headers and the log line are the same, and so
    is the whole reply unless it is the 200 reply, whose message was
    reworded.  Off Windows and for a request that is not a POST the two
    revisions answer alike whatever the body. *)
Theorem previous_clients (k : PowerActionKind) (h : Host) (r : Request) :
  ((Body r = None
    \/ exists body, Body r = Some body /\ json.nonSpace body = false) ->
   executed (serve k h r) = executed (previous.serve k h r)
   /\ status (w (serve k h r)) = status (w (previous.serve k h r))
   /\ header (w (serve k h r)) = header (w (previous.serve k h r))
   /\ logged (serve k h r) = logged (previous.serve k h r)
   /\ (status (w (serve k h r)) <> Some 200 ->
       w (serve k h r) = w (previous.serve k h r)))
  /\ (Method r <> MethodPost \/ GOOS h <> "windows" ->
      w (serve k h r) = w (previous.serve k h r)
      /\ executed (serve k h r) = executed (previous.serve k h r)
      /\ logged (serve k h r) = logged (previous.serve k h r)).
Proof.
  destruct (previous_serve_gates k h r) as [G1 G2].
  destruct (string_dec (Method r) MethodPost) as [Hm|Hm].
  2:{ rewrite (serve_wrong_method k h r Hm), (G1 Hm). repeat split. }
  destruct (string_dec (GOOS h) "windows") as [Hg|Hg].
  2:{ rewrite (serve_unsupported k h r Hm Hg), (G2 Hm Hg). repeat split. }
  split; [|intros [H|H]; contradiction].
  intros HB.
  assert (HP : fst (parseDelay r newWorld) = (0, None)).
  { destruct HB as [HB|(body & HB & Hb)].
    - now apply parseDelay_missing.
    - now apply (parseDelay_blank r body). }
  pose proof (serve_run k h r 0 Hm Hg HP) as S. cbv zeta in S. rewrite S.
  destruct (previous_serve_run k h r Hm Hg) as [message P]. rewrite P.
  destruct (Run h ("shutdown" :: commandArgs (baseArgsOf k) 0));
    cbn [w executed logged status header jsonReply]; repeat split.
  intros H. now contradiction H.
Qed.

Lemma previous_clients_witness :
  executed (serve Shutdown (windowsHost true) (post None))
  = [["shutdown"; "/s"; "/t"; "0"]]
  /\ executed (previous.serve Shutdown (windowsHost true) (post None))
     = [["shutdown"; "/s"; "/t"; "0"]].
Proof.
  pose proof (proj1 (proj1 (previous_clients Shutdown (windowsHost true)
                              (post None)) (or_introl eq_refl))) as H.
  split; [rewrite H|]; reflexivity.
Defined.

End revision_facts.

(* ================================================================== *)
(** * What a client reads in the reply *)

Module reply_facts.
Import json literals invariants encode_facts server spec.

Lemma length_append (a b : string) :
  String.length (a ++ b) = (String.length a + String.length b)%nat.
Proof. induction a as [|c a IH]; simpl; auto. Qed.

(** An ASCII byte is written as itself or as an escape, and either reads
    back as that byte. *)
Lemma unquote_chunk (b : ascii) (rest : string) (fuel : nat) :
  (byteN b <? 128)%N = true ->
  unquoteLoop (S fuel)
    ((if htmlSafe b then str1 b else escapeByte b) ++ rest)
  = byteN b :: unquoteLoop fuel rest.
Proof.
  destruct b as [[] [] [] [] [] [] [] []]; intros H;
    try (vm_compute in H; discriminate H); reflexivity.
Qed.

Lemma chunk_length (b : ascii) :
  (1 <= String.length (if htmlSafe b then str1 b else escapeByte b))%nat.
Proof.
  destruct b as [[] [] [] [] [] [] [] []]; vm_compute; lia.
Qed.

Lemma unquote_stringBody (msg : string) :
  isASCII msg = true ->
  forall f1 f2,
    (String.length msg <= f1)%nat ->
    (String.length (appendStringLoop f1 msg) <= f2)%nat ->
    unquoteLoop f2 (appendStringLoop f1 msg) = runesOf msg.
Proof.
  induction msg as [|b msg IH]; intros A f1 f2 H1 H2.
  - destruct f1, f2; reflexivity.
  - unfold isASCII in A. cbn [forallb_string] in A. apply andb_prop in A.
    destruct A as [Ab A]. destruct f1 as [|f1]; [simpl in H1; lia|].
    cbn [appendStringLoop] in *. rewrite Ab in *.
    rewrite length_append in H2. pose proof (chunk_length b) as L.
    destruct f2 as [|f2]; [lia|].
    rewrite (unquote_chunk b _ f2 Ab). cbn [runesOf]. f_equal.
    apply IH; auto; simpl in H1; lia.
Qed.

(** X9.  A client that decodes the JSON reply reads the very message the
    handler wrote, when the message is ASCII (as all the fixed messages
    are): the body is the one-member object, and unquoting its string
    gives the bytes of the message. *)
Theorem message_round_trip (code : Z) (message : string) :
  isASCII message = true ->
  exists raw,
    readValue (written (jsonReply code message))
    = readOk (Object [("message", Str raw)]) newline
    /\ unquote raw = runesOf message.
Proof.
  intros A. exists (stringBody message). split.
  - apply Encode_message_reads.
  - unfold unquote, stringBody. now apply unquote_stringBody.
Qed.

Lemma message_round_trip_witness :
  exists raw,
    readValue
      (written (w (serve Restart (windowsHost false) (post None))))
    = readOk (Object [("message", Str raw)]) newline
    /\ unquote raw = runesOf "Failed to execute power command.".
Proof.
  apply (message_round_trip StatusInternalServerError
           "Failed to execute power command.").
  reflexivity.
Defined.

End reply_facts.

(* ================================================================== *)
(** * More on the service control loop and on [main] *)

Module supervision_facts.
Import service lifecycle supervision service_facts.

Lemma step_keeps_running (status : Status) (c : Cmd) :
  exists c1 out,
    step (Selecting status) (Change c) = (c1, out)
    /\ (c1 = Selecting status \/ c1 = AwaitingDone stopPendingStatus).
Proof. destruct c; do 2 eexists; split; try reflexivity; auto. Qed.

(** [Execute] has returned exactly when it has received the server's
    result. *)
Lemma run_returns (evs : list Event) (c : Control) :
  (exists status, c = Selecting status \/ c = AwaitingDone status) ->
  (exists a, fst (run c evs) = Returned a 0)
  <-> List.existsb isDone evs = true.
Proof.
  revert c. induction evs as [|e evs IH]; intros c [status Hc].
  - cbn. split; [|discriminate]. intros [a H]. destruct Hc; subst; discriminate.
  - destruct e as [err|cmd].
    + cbn [List.existsb isDone orb]. split; [reflexivity|]. intros _.
      destruct Hc; subst c; cbn [run step]; rewrite run_returned; cbn [fst];
        eauto.
    + cbn [List.existsb isDone orb]. cbn [run].
      destruct Hc; subst c.
      * destruct (step_keeps_running status cmd) as (c1 & out & S & Hc1).
        rewrite S. specialize (IH c1).
        destruct (run c1 evs) as [c2 o2] eqn:R. cbn [fst] in *.
        apply IH. destruct Hc1; eauto.
      * cbn [step]. specialize (IH (AwaitingDone status)).
        destruct (run (AwaitingDone status) evs) as [c2 o2] eqn:R.
        cbn [fst] in *. apply IH. eauto.
Qed.

Lemma not_in_repeat_running (n : nat) : ~ List.In Stopped (List.repeat Running n).
Proof. intros H. apply List.repeat_spec in H. discriminate H. Qed.

(** X10.  [Execute] returns exactly when the server's result has been
    received on [done], never before, and always with exit code 0;
    [Stopped] is reported exactly then. *)
Theorem returns_with_server (evs : list Event) :
  ((exists a b, fst (Execute evs) = Returned a b)
   <-> List.existsb isDone evs = true)
  /\ (forall a b, fst (Execute evs) = Returned a b -> b = 0)
  /\ (List.In Stopped (reports (snd (Execute evs)))
      <-> List.existsb isDone evs = true).
Proof.
  pose proof (run_returns evs (Selecting runningStatus)
                (ex_intro _ runningStatus (or_introl eq_refl))) as RR.
  pose proof (run_selecting evs) as (n & tail & Hr & Hc).
  unfold Execute. destruct (run (Selecting runningStatus) evs) as [c out].
  cbn [fst snd] in *. split; [|split].
  - rewrite <- RR. split.
    + intros (a & b & ->).
      destruct Hc as [[H _]|[[H _]|[[H _]|[H _]]]]; try discriminate H;
        injection H as -> ->; eauto.
    + intros [a ->]. eauto.
  - intros a b ->.
    destruct Hc as [[H _]|[[H _]|[[H _]|[H _]]]]; try discriminate H;
      now injection H.
  - rewrite <- RR, reports_app, Hr. cbn [prologue reports State_ List.app].
    split.
    + intros [H|[H|H]]; try discriminate H.
      apply List.in_app_or in H. destruct H as [H|H];
        [now apply not_in_repeat_running in H|].
      destruct Hc as [[_ ->]|[[_ ->]|[[-> _]|[-> _]]]]; eauto;
        cbn in H; intuition discriminate.
    + intros [a ->]. right; right. apply List.in_or_app. right.
      destruct Hc as [[H _]|[[H _]|[[H ->]|[H ->]]]]; try discriminate H;
        cbn; auto.
Qed.

Lemma returns_with_server_witness :
  List.In Stopped (reports (snd (Execute [Change Interrogate; Done None]))).
Proof.
  apply (proj2 (proj2 (proj2 (returns_with_server
                                [Change Interrogate; Done None])))).
  reflexivity.
Defined.

(** A request that [Execute] has no case for changes nothing. *)
Lemma step_unanswered (c : Control) (e : Event) :
  answered e = false -> step c e = (c, []).
Proof.
  destruct e as [err|cmd]; [discriminate|].
  destruct c as [status|status|a b]; destruct cmd; try discriminate;
    reflexivity.
Qed.

Lemma run_filter (c : Control) (evs : list Event) :
  run c (List.filter answered evs) = run c evs.
Proof.
  revert c. induction evs as [|e evs IH]; intros c; [reflexivity|].
  cbn [List.filter]. destruct (answered e) eqn:A.
  - cbn [run]. destruct (step c e) as [c1 o1]. now rewrite IH.
  - cbn [run]. rewrite (step_unanswered c e A), IH.
    now destruct (run c evs).
Qed.

Lemma run_awaiting_changes (status : Status) (cmds : list Cmd) :
  run (AwaitingDone status) (List.map Change cmds) = (AwaitingDone status, []).
Proof.
  induction cmds as [|c cmds IH]; [reflexivity|].
  cbn [List.map run step]. now rewrite IH.
Qed.

(** X11.  Requests other than [Interrogate], [Stop] and [Shutdown] change
    nothing of what [Execute] does, wherever they arrive; and once a stop
    or shutdown request has been taken, no request is answered until the
    server's result arrives, an [Interrogate] no more than the others. *)
Theorem unanswered_requests (evs : list Event) :
  Execute (List.filter answered evs) = Execute evs
  /\ forall status cmds,
       fst (Execute evs) = AwaitingDone status ->
       Execute (evs ++ List.map Change cmds) = Execute evs.
Proof.
  split.
  - unfold Execute. now rewrite run_filter.
  - intros status cmds. unfold Execute. rewrite run_app.
    destruct (run (Selecting runningStatus) evs) as [c out]. cbn [fst snd].
    intros ->. rewrite run_awaiting_changes. cbn [fst snd].
    now rewrite List.app_nil_r.
Qed.

Lemma unanswered_requests_witness :
  Execute ([Change Stop] ++ List.map Change [Interrogate; Stop])
  = Execute [Change Stop].
Proof.
  apply (proj2 (unanswered_requests [Change Stop]) stopPendingStatus).
  reflexivity.
Defined.

Lemma run_reported (evs : list Event) (c : Control) (s : Status) :
  c = Selecting runningStatus
  \/ (exists status, c = AwaitingDone status)
  \/ (exists a b, c = Returned a b) ->
  List.In (Report s) (snd (run c evs)) ->
  s = runningStatus \/ s = stopPendingStatus \/ s = stoppedStatus.
Proof.
  revert c. induction evs as [|e evs IH]; intros c Hc; [intros []|].
  destruct Hc as [->|[[status ->]|(a & b & ->)]].
  - cbn [run]. destruct e as [err|cmd].
    + cbn [step]. rewrite run_returned. cbn [snd]. rewrite List.app_nil_r.
      intros H. apply List.in_app_or in H. destruct H as [H|H].
      * destruct err; cbn in H; intuition discriminate.
      * cbn in H. destruct H as [H|[H|H]];
          [injection H as <-; auto | discriminate H | contradiction].
    + assert (K : forall c1 o1,
                 step (Selecting runningStatus) (Change cmd) = (c1, o1) ->
                 (c1 = Selecting runningStatus
                  \/ (exists status, c1 = AwaitingDone status)
                  \/ (exists a b, c1 = Returned a b))
                 /\ forall x, List.In (Report x) o1 ->
                      x = runningStatus \/ x = stopPendingStatus
                      \/ x = stoppedStatus).
      { intros c1 o1. destruct cmd; cbn [step]; intros [= <- <-];
          (split; [eauto|]); cbn; intros x H;
          repeat (destruct H as [H|H]; try discriminate H;
                  try (injection H as <-; auto)); try contradiction. }
      destruct (step (Selecting runningStatus) (Change cmd)) as [c1 o1] eqn:S.
      destruct (K c1 o1 eq_refl) as [Hc1 Ho1].
      specialize (IH c1 Hc1). destruct (run c1 evs) as [c2 o2].
      cbn [snd] in *. intros H. apply List.in_app_or in H.
      destruct H as [H|H]; auto.
  - cbn [run]. destruct e as [err|cmd].
    + cbn [step]. rewrite run_returned. cbn [snd]. rewrite List.app_nil_r.
      intros H. apply List.in_app_or in H. destruct H as [H|H].
      * destruct err as [x|]; [destruct (negb (errors_Is x sCanceled))|];
          cbn in H; intuition discriminate.
      * cbn in H. destruct H as [H|[H|H]];
          [injection H as <-; auto | discriminate H | contradiction].
    + cbn [step]. specialize (IH (AwaitingDone status)).
      destruct (run (AwaitingDone status) evs) as [c2 o2]. cbn [snd] in *.
      apply IH. eauto.
  - rewrite run_returned. intros [].
Qed.

(** X12.  Every status [Execute] sends is one of four: [StartPending]
    accepting no control, [Running] and [StopPending] accepting stop and
    shutdown, and [Stopped] accepting no control. *)
Theorem reported_statuses (evs : list Event) (s : Status) :
  List.In (Report s) (snd (Execute evs)) ->
  s = mkStatus StartPending 0
  \/ s = mkStatus Running (N.lor AcceptStop AcceptShutdown)
  \/ s = mkStatus StopPending (N.lor AcceptStop AcceptShutdown)
  \/ s = mkStatus Stopped 0.
Proof.
  unfold Execute.
  pose proof (run_reported evs (Selecting runningStatus) s
                (or_introl eq_refl)) as H.
  destruct (run (Selecting runningStatus) evs) as [c out]. cbn [snd] in *.
  intros K. apply List.in_app_or in K. destruct K as [K|K].
  - cbn in K. destruct K as [K|[K|[K|K]]]; try discriminate K;
      try contradiction; injection K as <-; auto.
  - destruct (H K) as [-> | [-> | ->]]; auto.
Qed.

Lemma reported_statuses_witness :
  List.In (Report (mkStatus StopPending 5)) (snd (Execute [Change Shutdown]))
  /\ (mkStatus StopPending 5 = mkStatus StartPending 0
      \/ mkStatus StopPending 5
         = mkStatus Running (N.lor AcceptStop AcceptShutdown)
      \/ mkStatus StopPending 5
         = mkStatus StopPending (N.lor AcceptStop AcceptShutdown)
      \/ mkStatus StopPending 5 = mkStatus Stopped 0).
Proof.
  assert (H : List.In (Report (mkStatus StopPending 5))
                (snd (Execute [Change Shutdown]))) by (cbn; auto).
  split; [exact H|].
  exact (reported_statuses [Change Shutdown] (mkStatus StopPending 5) H).
Defined.

(** X13.  The exit status of the process is 1 in three cases and 0 in
    every other: [svc.IsWindowsService] fails; or, under the service
    manager, the dispatcher cannot be reached; or, started by hand, the
    server returns an error other than [http.ErrServerClosed].  Under the
    service manager it does not depend on what the server did.  When the
    service cannot be initialised no request is served and nothing is
    reported. *)
Theorem exit_status (e : Surroundings) :
  exitStatus (main e) = exitStatusTable e
  /\ (isServiceErr e <> None \/ (isService e = true /\ dispatcherErr e <> None)
      -> exitStatus (main e) = 1 /\ served (main e) = []
         /\ effects (main e) = []).
Proof.
  unfold main, maybeRunService, svc_Run, exitStatusTable.
  destruct (isServiceErr e) as [x|]; [cbn; split; auto|].
  destruct (isService e); cbn [negb].
  - destruct (dispatcherErr e) as [x|].
    + cbn. split; auto.
    + destruct (Execute _) as [c out]. cbn. split; [reflexivity|].
      intros [H|[_ H]]; congruence.
  - unfold runHTTPServer.
    destruct (errors_Is (ListenAndServe (serving e)) sErrServerClosed); cbn;
      (split; [reflexivity|]); intros [H|[H _]]; congruence.
Qed.

Lemma exit_status_witness :
  exitStatus
    (main (mkSurroundings true None (Some (os_Error "dispatcher")) 
             (Served [] http_ErrServerClosed) [])) = 1.
Proof.
  apply (proj2 (exit_status
                  (mkSurroundings true None (Some (os_Error "dispatcher"))
                     (Served [] http_ErrServerClosed) []))).
  right. split; [reflexivity | discriminate].
Defined.

End supervision_facts.
